(** * Recipe recommender: ingredient normalisation, overlap, filtering, scoring

    A shallow embedding of [utils/preprocessing.py] and [recommender.py].

    Conventions of the model.
    - A Python [str] is a [string]; a character stands for the code point of the
      same number (code points below 256).  [isspace] and [lower_char] follow
      Python's [str.isspace] and [str.lower] on that range.
    - A Python [set] of strings is a [gset string].
    - Python numbers are exact: [int] is [Z], and the floats of the scorer are
      rationals ([Q]), so rounding is not part of the model.
    - An operation that can raise returns a [result]. *)

From Stdlib Require Import ZArith QArith Qminmax Ascii String List Bool Lia Lqa.
From Stdlib Require Import Sorting.Sorted Sorting.Permutation.
From stdpp Require Import base decidable option list gmap strings sorting.

Local Open Scope string_scope.
Local Open Scope list_scope.

(** ** Characters and the string primitives of Python that the code uses *)

Module PyStr.

Definition code (c : ascii) : N := N_of_ascii c.

Definition between (lo hi : N) (c : ascii) : bool :=
  ((lo <=? code c) && (code c <=? hi))%N.

(** [str.isspace] on one character, also what [\s] matches in [re]. *)
Definition isspace (c : ascii) : bool :=
  between 9 13 c || between 28 32 c || (code c =? 133)%N || (code c =? 160)%N.

(** [str.lower] on one character. *)
Definition lower_char (c : ascii) : ascii :=
  if between 65 90 c || (between 192 222 c && negb (code c =? 215)%N)
  then ascii_of_N (code c + 32)
  else c.

Definition is_az (c : ascii) : bool := between 97 122 c.
Definition is_digit (c : ascii) : bool := between 48 57 c.

Fixpoint lower (s : string) : string :=
  match s with
  | EmptyString => EmptyString
  | String c s' => String (lower_char c) (lower s')
  end.

Fixpoint lstrip (s : string) : string :=
  match s with
  | EmptyString => EmptyString
  | String c s' => if isspace c then lstrip s' else s
  end.

Fixpoint rstrip (s : string) : string :=
  match s with
  | EmptyString => EmptyString
  | String c s' =>
      match rstrip s' with
      | EmptyString => if isspace c then EmptyString else String c EmptyString
      | r => String c r
      end
  end.

(** [s.strip()] *)
Definition strip (s : string) : string := lstrip (rstrip s).

(** [re.sub(r'\s+', ' ', s)]: every maximal run of whitespace becomes one
    space.  [in_run] tells that the previous character was whitespace. *)
Fixpoint sub_ws_runs (in_run : bool) (s : string) : string :=
  match s with
  | EmptyString => EmptyString
  | String c s' =>
      if isspace c
      then (if in_run then sub_ws_runs true s'
            else String " " (sub_ws_runs true s'))
      else String c (sub_ws_runs false s')
  end.

(** The class [[a-z0-9\s]]. *)
Definition keep_char (c : ascii) : bool := is_az c || is_digit c || isspace c.

(** [re.sub(r'[^a-z0-9\s]', '', s)] *)
Fixpoint sub_special (s : string) : string :=
  match s with
  | EmptyString => EmptyString
  | String c s' =>
      if keep_char c then String c (sub_special s') else sub_special s'
  end.

(** Splitting at every character of a class: [s.split(',')] and
    [re.split(r'[,\n]', s)].  [n] separators give [n + 1] pieces, so the
    result is never empty. *)
Fixpoint split_on (sep : ascii -> bool) (s : string) : list string :=
  match s with
  | EmptyString => [EmptyString]
  | String c s' =>
      if sep c then EmptyString :: split_on sep s'
      else match split_on sep s' with
           | h :: t => String c h :: t
           | [] => [String c EmptyString]
           end
  end.

Definition is_comma (c : ascii) : bool := (code c =? 44)%N.
Definition is_comma_or_newline (c : ascii) : bool :=
  (code c =? 44)%N || (code c =? 10)%N.

(** Truth value of a string: non-empty. *)
Definition truthy (s : string) : bool :=
  match s with EmptyString => false | _ => true end.

End PyStr.

Import PyStr.

(** ** utils/preprocessing.py *)

(** The alias table, in the insertion order of the dict literal (the order in
    which [items()] yields it). *)
Definition INGREDIENT_ALIASES : list (string * list string) :=
  [ ("tomato", ["tomatoes"; "tomatoe"; "tamatar"]);
    ("onion", ["onions"; "pyaz"]);
    ("garlic", ["garlics"; "lahsun"]);
    ("ginger", ["gingers"; "adrak"]);
    ("chicken", ["chickens"; "murgi"; "murgh"]);
    ("rice", ["rices"; "basmati"; "jasmine"]);
    ("oil", ["oils"; "ghee"; "butter"]);
    ("salt", ["salts"; "namak"]);
    ("pepper", ["peppers"; "black pepper"; "kali mirch"]);
    ("cumin", ["cumins"; "jeera"]);
    ("coriander", ["cilantro"; "dhania"]);
    ("turmeric", ["haldi"]);
    ("chili", ["chilies"; "red chili"; "lal mirch"]);
    ("milk", ["milks"; "doodh"]);
    ("yogurt", ["yoghurt"; "curd"; "dahi"]);
    ("flour", ["flours"; "maida"]);
    ("sugar", ["sugars"; "cheeni"]);
    ("water", ["waters"]);
    ("lemon", ["lemons"; "lime"; "nimbu"]);
    ("potato", ["potatoes"; "aloo"]);
    ("carrot", ["carrots"; "gajar"]);
    ("spinach", ["spinaches"; "palak"]);
    ("green beans", ["beans"; "string beans"; "lobiya"]);
    ("bell pepper", ["capsicum"; "simla mirch"]);
    ("mushroom", ["mushrooms"; "khumbh"]);
    ("peas", ["green peas"; "matar"]);
    ("paneer", ["cottage cheese"; "indian cheese"]);
    ("lentils", ["dal"; "daal"; "lens"]);
    ("chickpeas", ["chana"; "garbanzo"]) ].

(** The first three steps of [normalize_ingredient]: lowercase and strip,
    collapse whitespace runs, remove special characters, in that order. *)
Definition clean (ingredient : string) : string :=
  let normalized := strip (lower ingredient) in
  let normalized := sub_ws_runs false normalized in
  sub_special normalized.

(** The inner loop [for alias in aliases]: does some alias, lowercased, equal
    the cleaned text? *)
Fixpoint alias_matches (normalized : string) (aliases : list string) : bool :=
  match aliases with
  | [] => false
  | alias :: rest =>
      if String.eqb normalized (lower alias) then true
      else alias_matches normalized rest
  end.

(** The outer loop [for canonical, aliases in INGREDIENT_ALIASES.items()],
    with its two early returns and the fall-through [return normalized]. *)
Fixpoint resolve_alias (table : list (string * list string))
    (normalized : string) : string :=
  match table with
  | [] => normalized
  | (canonical, aliases) :: rest =>
      if String.eqb normalized canonical then canonical
      else if alias_matches normalized aliases then canonical
      else resolve_alias rest normalized
  end.

Definition normalize_ingredient (ingredient : string) : string :=
  resolve_alias INGREDIENT_ALIASES (clean ingredient).

(** One turn of the de-duplication loop on the pair
    [(seen, unique_ingredients)]. *)
Definition dedup_step (st : gset string * list string) (ing : string)
    : gset string * list string :=
  let '(seen, unique_ingredients) := st in
  if truthy ing && negb (bool_decide (ing ∈ seen))
  then ({[ ing ]} ∪ seen, unique_ingredients ++ [ing])
  else st.

Definition dedup_loop (normalized : list string) : gset string * list string :=
  fold_left dedup_step normalized (∅, []).

(** The list [normalized] built by the comprehension of
    [normalize_ingredients], before duplicates are removed. *)
Definition normalized_fragments (ingredients_text : string) : list string :=
  let raw_ingredients := split_on is_comma_or_newline ingredients_text in
  map normalize_ingredient
      (List.filter (fun ing => truthy (strip ing)) raw_ingredients).

Definition normalize_ingredients (ingredients_text : string) : list string :=
  let normalized := normalized_fragments ingredients_text in
  let '(seen, unique_ingredients) := dedup_loop normalized in
  unique_ingredients.

(** ** Errors and numbers *)

Inductive exn : Type := ZeroDivisionError.

Inductive result (A : Type) : Type :=
  | Value (a : A)
  | Raise (e : exn).
Arguments Value {A} a.
Arguments Raise {A} e.

Definition bind {A B : Type} (m : result A) (k : A -> result B) : result B :=
  match m with
  | Value a => k a
  | Raise e => Raise e
  end.

Notation "'let!' x ':=' m 'in' k" := (bind m (fun x => k))
  (at level 10, x name, m at level 100, k at level 200).

(** A list comprehension or [Series.apply] whose body can raise: the first
    exception stops it. *)
Fixpoint map_result {A B : Type} (f : A -> result B) (l : list A)
    : result (list B) :=
  match l with
  | [] => Value []
  | a :: l' =>
      let! b := f a in
      let! bs := map_result f l' in
      Value (b :: bs)
  end.

Local Open Scope Q_scope.

(** [a / b] on numbers. *)
Definition truediv (a b : Q) : result Q :=
  if Qeq_bool b 0 then Raise ZeroDivisionError else Value (a / b).

Definition Qlt_bool (a b : Q) : bool := negb (Qle_bool b a).

(** The built-ins [min(a, b)] and [max(a, b)]: the first argument is kept
    unless the second is strictly smaller (larger). *)
Definition py_min (a b : Q) : Q := if Qlt_bool b a then b else a.
Definition py_max (a b : Q) : Q := if Qlt_bool a b then b else a.

Definition of_int (z : Z) : Q := inject_Z z.
Definition of_len (n : nat) : Q := inject_Z (Z.of_nat n).

(** ** recommender.py *)

Definition calculate_ingredient_overlap (recipe_ingredients : string)
    (user_ingredients : list string) : result Q :=
  let recipe_ing_list :=
    map (fun ing => lower (strip ing)) (split_on is_comma recipe_ingredients) in
  let user_ing_set : gset string := list_to_set user_ingredients in
  if Nat.eqb (length recipe_ing_list) 0 then Value 0
  else
    let matches :=
      length (List.filter (fun ing => bool_decide (ing ∈ user_ing_set))
                          recipe_ing_list) in
    let! ratio := truediv (of_len matches) (of_len (length recipe_ing_list)) in
    let overlap := ratio * 100 in
    Value overlap.

(** A row of the recipes table.  [ingredient_overlap] is [None] while the
    table has no such column (the catalog as loaded). *)
Record Row : Type := mkRow {
  recipe_name : string;
  ingredients : string;
  cooking_time : Z;
  meal_type : string;
  cuisine : string;
  instructions : string;
  ingredient_overlap : option Q
}.

Definition set_ingredient_overlap (r : Row) (o : Q) : Row :=
  {| recipe_name := recipe_name r;
     ingredients := ingredients r;
     cooking_time := cooking_time r;
     meal_type := meal_type r;
     cuisine := cuisine r;
     instructions := instructions r;
     ingredient_overlap := Some o |}.

Definition set_cooking_time (r : Row) (t : Z) : Row :=
  {| recipe_name := recipe_name r;
     ingredients := ingredients r;
     cooking_time := t;
     meal_type := meal_type r;
     cuisine := cuisine r;
     instructions := instructions r;
     ingredient_overlap := ingredient_overlap r |}.

(** [filtered['ingredient_overlap'] >= threshold] on one row; a missing value
    compares false. *)
Definition overlap_at_least (threshold : Q) (r : Row) : bool :=
  match ingredient_overlap r with
  | Some o => Qle_bool threshold o
  | None => false
  end.

(** The order of [sort_values('ingredient_overlap', ascending=False)]: larger
    overlap first, missing values last. *)
Definition overlap_desc (a b : Row) : Prop :=
  match ingredient_overlap a, ingredient_overlap b with
  | Some x, Some y => y <= x
  | _, None => True
  | None, Some _ => False
  end.

#[global] Instance overlap_desc_dec (a b : Row) : Decision (overlap_desc a b).
Proof.
  unfold overlap_desc.
  destruct (ingredient_overlap a) as [x|], (ingredient_overlap b) as [y|].
  - destruct (Qlt_le_dec x y) as [H|H].
    + right. intros H'. exact (Qlt_not_le _ _ H H').
    + left. exact H.
  - left. exact I.
  - right. intros [].
  - left. exact I.
Defined.

(** [DataFrame.sort_values] belongs to pandas, which leaves the order of rows
    with equal keys open; the sort is an argument of the model, and the
    properties below ask of it only that it permutes its input and orders it
    by [overlap_desc]. *)
Definition filter_recipes (sort_values : list Row -> list Row)
    (recipes_df : list Row) (user_ingredients : list string)
    (max_cooking_time : Z) (meal_type' cuisine' : string) (min_overlap : Q)
    : result (list Row) :=
  let filtered := recipes_df in
  let filtered :=
    List.filter (fun r => (cooking_time r <=? max_cooking_time)%Z) filtered in
  let filtered :=
    List.filter (fun r => String.eqb (lower (meal_type r)) (lower meal_type'))
                filtered in
  let filtered :=
    List.filter (fun r => String.eqb (lower (cuisine r)) (lower cuisine'))
                filtered in
  let! filtered :=
    map_result
      (fun r =>
         let! o := calculate_ingredient_overlap (ingredients r)
                                                user_ingredients in
         Value (set_ingredient_overlap r o))
      filtered in
  let filtered :=
    List.filter (overlap_at_least (min_overlap * 100)) filtered in
  let filtered := sort_values filtered in
  Value filtered.

(** A sort with the contract of [sort_values], used to run the model. *)
Definition stable_sort_desc : list Row -> list Row := merge_sort overlap_desc.

Definition score_recipe (recipe : Row) (user_ingredients : list string)
    (cooking_time_limit : Z) : result Q :=
  let! ingredient_overlap :=
    calculate_ingredient_overlap (ingredients recipe) user_ingredients in
  let ingredient_score := py_min ingredient_overlap 100 * (4 # 10) in
  let! ratio :=
    truediv (of_int (cooking_time recipe)) (of_int cooking_time_limit) in
  let time_efficiency := ratio * 100 in
  let time_score := py_max 0 (100 - time_efficiency) * (3 # 10) in
  let base_score := 30 in
  let total_score := ingredient_score + time_score + base_score in
  Value (py_min total_score 100).

(** ** Definitions used to state the properties *)

(** Position of the first occurrence of [x] in [l] ([l.index(x)]). *)
Fixpoint index_of (x : string) (l : list string) : option nat :=
  match l with
  | [] => None
  | y :: l' => if String.eqb x y then Some O else option_map S (index_of x l')
  end.

(** What the loop maintains after it has consumed [pre]. *)
Record dedup_inv (pre : list string) (st : gset string * list string) : Prop := {
  inv_seen : forall x, x ∈ st.1 <-> In x st.2;
  inv_nodup : List.NoDup st.2;
  inv_elems : forall x, In x st.2 <-> In x pre /\ x <> "";
  inv_order : forall i j x y,
    st.2 !! i = Some x -> st.2 !! j = Some y -> (i < j)%nat ->
    exists p q, index_of x pre = Some p /\ index_of y pre = Some q /\ (p < q)%nat
}.

(** Spec side: the cleaned text equals the canonical name of the entry or one
    of its registered aliases, as whole strings. *)
Definition entry_matches (c : string) (e : string * list string) : bool :=
  String.eqb c e.1 || existsb (String.eqb c) e.2.

Definition entry_names (e : string * list string) : list string := e.1 :: e.2.

Definition all_names (table : list (string * list string)) : list string :=
  concat (map entry_names table).

(** Spec side: the three parts of "lowercase, whitespace-collapsed,
    alphanumeric-only". *)
Definition token_char (c : ascii) : bool :=
  is_az c || is_digit c || Ascii.eqb c " ".

Fixpoint charset_ok (s : string) : bool :=
  match s with
  | EmptyString => true
  | String c s' => token_char c && charset_ok s'
  end.

Definition no_outer_whitespace (s : string) : bool := String.eqb (strip s) s.

Fixpoint no_double_space (s : string) : bool :=
  match s with
  | String a (String b _ as s') =>
      negb (Ascii.eqb a " " && Ascii.eqb b " ") && no_double_space s'
  | _ => true
  end.

(** The value that [calculate_ingredient_overlap] returns. *)
Definition overlap_of (recipe_ingredients : string)
    (user_ingredients : list string) : Q :=
  match calculate_ingredient_overlap recipe_ingredients user_ingredients with
  | Value o => o
  | Raise _ => 0
  end.

(** Spec side: the score as the weighted sum of clamped terms. *)
Definition score_spec (overlap : Q) (cooking_time' time_limit : Z) : Q :=
  Qmin (Qmin overlap 100 * (4 # 10)
        + Qmax 0 (100 - (of_int cooking_time' / of_int time_limit) * 100)
          * (3 # 10)
        + 30)
       100.

(** The column assignment of [filter_recipes] on one row. *)
Definition annotate (user_ingredients : list string) (r : Row) : Row :=
  set_ingredient_overlap r (overlap_of (ingredients r) user_ingredients).

(** The three narrowing steps on time, meal type and cuisine. *)
Definition narrowed (recipes_df : list Row) (max_cooking_time : Z)
    (meal_type' cuisine' : string) : list Row :=
  List.filter (fun r => String.eqb (lower (cuisine r)) (lower cuisine'))
    (List.filter (fun r => String.eqb (lower (meal_type r)) (lower meal_type'))
       (List.filter (fun r => (cooking_time r <=? max_cooking_time)%Z)
          recipes_df)).

(** Descending order on rows that carry an overlap. *)
Definition overlap_ge (a b : Row) : Prop :=
  exists x y, ingredient_overlap a = Some x /\ ingredient_overlap b = Some y
              /\ y <= x.

(** What the filter promises of a row of its output. *)
Definition accepted_row (user_ingredients : list string) (max_cooking_time : Z)
    (meal_type' cuisine' : string) (min_overlap : Q) (r : Row) : Prop :=
  (cooking_time r <= max_cooking_time)%Z
  /\ lower (meal_type r) = lower meal_type'
  /\ lower (cuisine r) = lower cuisine'
  /\ exists o,
       ingredient_overlap r = Some o
       /\ calculate_ingredient_overlap (ingredients r) user_ingredients
          = Value o
       /\ min_overlap * 100 <= o.

(** ** Sample data *)

Definition pasta : Row :=
  mkRow "Pasta Pomodoro" "pasta, tomato, basil" 25 "Dinner" "Italian" "Boil." None.
Definition risotto : Row :=
  mkRow "Risotto" "rice, onion, butter, stock" 40 "dinner" "italian" "Stir." None.
Definition bruschetta : Row :=
  mkRow "Bruschetta" "bread, tomato, basil, garlic" 10 "DINNER" "ITALIAN" "Toast." None.
Definition dosa : Row :=
  mkRow "Dosa" "rice, lentils" 20 "Breakfast" "Indian" "Ferment." None.

Definition catalog : list Row := [bruschetta; risotto; pasta; dosa].

(** ** recommender.py: the candidate selector *)

(** [DataFrame.head(n)] is [iloc[:n]]: the first [n] rows, and for a negative
    [n] all rows but the last [-n]. *)
Definition head (n : Z) (df : list Row) : list Row :=
  if (0 <=? n)%Z then firstn (Z.to_nat n) df
  else firstn (length df - Z.to_nat (- n)) df.

(** The dictionary built for one row by [get_top_candidates]. *)
Record Candidate : Type := mkCandidate {
  cand_recipe_name : string;
  cand_ingredients : string;
  cand_cooking_time : Z;
  cand_meal_type : string;
  cand_cuisine : string;
  cand_instructions : string;
  cand_ingredient_overlap : Q
}.

(** [row.get('ingredient_overlap', 0)] *)
Definition get_overlap_or_0 (r : Row) : Q :=
  match ingredient_overlap r with
  | Some o => o
  | None => 0
  end.

Definition candidate_of_row (row : Row) : Candidate :=
  {| cand_recipe_name := recipe_name row;
     cand_ingredients := ingredients row;
     cand_cooking_time := cooking_time row;
     cand_meal_type := meal_type row;
     cand_cuisine := cuisine row;
     cand_instructions := instructions row;
     cand_ingredient_overlap := get_overlap_or_0 row |}.

(** The loop over [top_recipes.iterrows()] appends one dictionary per row, in
    row order.  [user_ingredients] is accepted and not used. *)
Definition get_top_candidates (recipes_df : list Row)
    (user_ingredients : list string) (top_n : Z) : list Candidate :=
  let top_recipes := head top_n recipes_df in
  fold_left (fun candidates row => candidates ++ [candidate_of_row row])
            top_recipes [].

(** ** utils/preprocessing.py: keywords *)

(** The class [\w] of [re] on the characters of the model: letters, digits
    (also the superscript digits and the vulgar fractions) and underscore. *)
Definition is_word_char (c : ascii) : bool :=
  between 48 57 c || between 65 90 c || (code c =? 95)%N || between 97 122 c
  || (code c =? 170)%N || (code c =? 178)%N || (code c =? 179)%N
  || (code c =? 181)%N || (code c =? 185)%N || (code c =? 186)%N
  || between 188 190 c || between 192 214 c || between 216 246 c
  || between 248 255 c.

Fixpoint all_chars (p : ascii -> bool) (s : string) : bool :=
  match s with
  | EmptyString => true
  | String c s' => p c && all_chars p s'
  end.

(** [re.findall(r'\b[a-z]+\b', s)]: a match starts and ends at a word
    boundary, so the matches are the maximal runs of word characters that
    consist of [a-z] only, from left to right. *)
Definition findall_az_words (s : string) : list string :=
  List.filter (fun w => truthy w && all_chars is_az w)
              (split_on (fun c => negb (is_word_char c)) s).

Definition stop_words : gset string :=
  list_to_set
    ["a"; "an"; "the"; "and"; "or"; "but"; "in"; "on"; "at"; "to"; "for";
     "of"; "with"; "by"; "from"; "is"; "are"; "be"; "been"; "being"].

(** The list [keywords] of [extract_keywords], before [list(set(keywords))]. *)
Definition keyword_list (text : string) : list string :=
  let words := findall_az_words (lower text) in
  List.filter
    (fun w => negb (bool_decide (w ∈ stop_words))
              && Nat.ltb 2 (String.length w))
    words.

(** [extract_keywords] returns [list(set(keywords))], a list without
    duplicates whose order Python leaves open; the model returns the set. *)
Definition extract_keywords (text : string) : gset string :=
  list_to_set (keyword_list text).

(** ** youtube.py *)

Module Youtube.

(** The bytes of [s.encode('utf-8')] for one character of the model. *)
Definition utf8_encode_char (c : ascii) : list N :=
  if (code c <? 128)%N then [code c]
  else [(192 + code c / 64)%N; (128 + code c mod 64)%N].

(** The bytes [quote] leaves alone: letters, digits, [_.-~] and the default
    [safe='/']. *)
Definition is_safe_byte (b : N) : bool :=
  ((65 <=? b) && (b <=? 90) || (97 <=? b) && (b <=? 122)
   || (48 <=? b) && (b <=? 57)
   || (b =? 95) || (b =? 46) || (b =? 45) || (b =? 126) || (b =? 47))%N.

Definition hex_digit (d : N) : ascii :=
  if (d <? 10)%N then ascii_of_N (48 + d) else ascii_of_N (55 + d).

(** One byte of [quote_from_bytes]: itself, or ['%{:02X}']. *)
Definition quote_byte (b : N) : string :=
  if is_safe_byte b then String (ascii_of_N b) EmptyString
  else String "%" (String (hex_digit (b / 16))
                          (String (hex_digit (b mod 16)) EmptyString)).

(** What [quote] writes for one character: its bytes, each one quoted. *)
Definition quote_char (c : ascii) : string :=
  fold_right (fun b acc => (quote_byte b ++ acc)%string) EmptyString
             (utf8_encode_char c).

(** [urllib.parse.quote(s)] *)
Fixpoint quote (s : string) : string :=
  match s with
  | EmptyString => EmptyString
  | String c s' => (quote_char c ++ quote s')%string
  end.

Definition generate_youtube_search_url (recipe_name' cuisine' : string)
    : string :=
  let search_query :=
    (recipe_name' ++ " " ++ cuisine' ++ " recipe")%string in
  let encoded_query := quote search_query in
  let youtube_url :=
    ("https://www.youtube.com/results?search_query=" ++ encoded_query)%string in
  youtube_url.

Definition generate_youtube_playlist_url (cuisine' : string) : string :=
  let search_query := (cuisine' ++ " recipes")%string in
  let encoded_query := quote search_query in
  ("https://www.youtube.com/results?search_query=" ++ encoded_query)%string.

(** The characters that can occur in a quoted string. *)
Definition url_safe_char (c : ascii) : bool :=
  is_safe_byte (code c) || Ascii.eqb c "%".

(** All characters of the model, by code. *)
Definition all_ascii : list ascii := map ascii_of_nat (seq 0 256).

End Youtube.

(** ** Further definitions used to state properties *)

(** The list [recipe_ing_list] of [calculate_ingredient_overlap]. *)
Definition recipe_pieces (recipe_ingredients : string) : list string :=
  map (fun ing => lower (strip ing)) (split_on is_comma recipe_ingredients).

(** The number [matches] of [calculate_ingredient_overlap]. *)
Definition match_count (recipe_ingredients : string)
    (user_ingredients : list string) : nat :=
  length (List.filter
            (fun ing =>
               bool_decide (ing ∈ (list_to_set user_ingredients : gset string)))
            (recipe_pieces recipe_ingredients)).

(** The row without its overlap column. *)
Definition drop_overlap (r : Row) : Row :=
  {| recipe_name := recipe_name r;
     ingredients := ingredients r;
     cooking_time := cooking_time r;
     meal_type := meal_type r;
     cuisine := cuisine r;
     instructions := instructions r;
     ingredient_overlap := None |}.

(** What the pipeline promises of a candidate. *)
Definition accepted_candidate (max_cooking_time : Z)
    (meal_type' cuisine' : string) (min_overlap : Q) (c : Candidate) : Prop :=
  (cand_cooking_time c <= max_cooking_time)%Z
  /\ lower (cand_meal_type c) = lower meal_type'
  /\ lower (cand_cuisine c) = lower cuisine'
  /\ min_overlap * 100 <= cand_ingredient_overlap c.

(** Letters [A-Z] and [a-z], digits and whitespace: the characters that
    cleaning keeps, up to letter case. *)
Definition plain_char (c : ascii) : bool :=
  between 65 90 c || is_az c || is_digit c || isspace c.

(** ** ai_engine.py

    The Gemini client and [json] are outside the repository.  What the client
    answers is an argument of the model, and so is [json.loads]; the prompts,
    which only the client reads, are not modelled. *)

Module AiEngine.






(** A value that [json.loads] returns. *)
#[warnings="-register-all"]
Inductive json : Type :=
  | JNull
  | JBool (b : bool)
  | JNum (n : Q)
  | JStr (s : string)
  | JList (items : list json)
  | JDict (fields : gmap string json).

(** What the call [model.generate_content(prompt)] and the reading of
    [response.text] come to: an exception, or the text. *)
Inductive response : Type :=
  | CallRaises
  | ResponseText (text : string).

(** How a generator ends: it returns, or raises one of its three errors:
    the [ValueError] for a missing key, ["Failed to parse Gemini response"],
    or ["Gemini API error"]. *)
Inductive outcome (A : Type) : Type :=
  | Returns (a : A)
  | RaisesValueError
  | RaisesParseFailure
  | RaisesApiError.
Arguments Returns {A} a.
Arguments RaisesValueError {A}.
Arguments RaisesParseFailure {A}.
Arguments RaisesApiError {A}.

(** [sub in s] on strings. *)
Fixpoint contains (sub s : string) : bool :=
  match s with
  | EmptyString => String.prefix sub EmptyString
  | String _ s' => String.prefix sub s || contains sub s'
  end.

(** [s.split(sep)] for a separator of one character or more, scanning from
    the left; [skip] counts the characters of a separator still to pass. *)
Fixpoint split_str (sep : string) (skip : nat) (s : string) : list string :=
  match s with
  | EmptyString => [EmptyString]
  | String c s' =>
      match skip with
      | S k => split_str sep k s'
      | O =>
          if String.prefix sep s
          then EmptyString :: split_str sep (String.length sep - 1) s'
          else match split_str sep 0 s' with
               | h :: t => String c h :: t
               | [] => [String c EmptyString]
               end
      end
  end.

(** [s[n:]] *)
Fixpoint drop_chars (n : nat) (s : string) : string :=
  match n, s with
  | S k, String _ s' => drop_chars k s'
  | _, _ => s
  end.

(** [s.find(c)] and [s.rfind(c)] for one character: the index, or [-1]. *)
Fixpoint find_char (c : ascii) (s : string) : Z :=
  match s with
  | EmptyString => (-1)%Z
  | String x s' =>
      if Ascii.eqb x c then 0%Z
      else let r := find_char c s' in
           if (r =? -1)%Z then (-1)%Z else (r + 1)%Z
  end.

Fixpoint rfind_char (c : ascii) (s : string) : Z :=
  match s with
  | EmptyString => (-1)%Z
  | String x s' =>
      let r := rfind_char c s' in
      if (r =? -1)%Z then (if Ascii.eqb x c then 0%Z else (-1)%Z)
      else (r + 1)%Z
  end.

(** [s[i:j]] for [0 <= i <= j]. *)
Definition slice (i j : Z) (s : string) : string :=
  String.substring (Z.to_nat i) (Z.to_nat (j - i)) s.

Definition required_keys : list string :=
  ["recipe_name"; "ingredients"; "cooking_time"; "instructions"].

(** [key in result]: a key of a dict, an element of a list, a substring of a
    string; for any other value Python raises a [TypeError] ([None]). *)
Definition py_in (key : string) (result : json) : option bool :=
  match result with
  | JDict fields => Some (bool_decide (is_Some (fields !! key)))
  | JList items =>
      Some (existsb (fun x => match x with
                              | JStr s => String.eqb s key
                              | _ => false
                              end) items)
  | JStr s => Some (contains key s)
  | _ => None
  end.

(** [all(key in result for key in keys)], left to right. *)
Fixpoint all_in (keys : list string) (result : json) : option bool :=
  match keys with
  | [] => Some true
  | key :: rest =>
      match py_in key result with
      | None => None
      | Some false => Some false
      | Some true => all_in rest result
      end
  end.

Definition default_reason : json :=
  JStr "Perfect match for your ingredients and time!".

(** [result["reason"] = result.get("reason", default)] on a dict. *)
Definition with_reason (fields : gmap string json) : gmap string json :=
  <[ "reason" := default (default_reason) (fields !! "reason") ]> fields.

(** The validation of one parsed value: [Some (Some d)] when it is kept,
    [Some None] when it is passed over, [None] when Python raises (a
    [TypeError] from [in], or an [AttributeError] from [.get] on a list or a
    string that holds all the keys). *)
Definition validate (result : json) : option (option (gmap string json)) :=
  match all_in required_keys result with
  | None => None
  | Some false => Some None
  | Some true =>
      match result with
      | JDict fields => Some (Some (with_reason fields))
      | _ => None
      end
  end.

Section Generators.

Variable json_loads : string -> option json.

(** The body of [generate_recipe_with_gemini] from the answer of the client
    on.  [api_key] is the module's [API_KEY]. *)
Definition generate_recipe_with_gemini (api_key : string) (resp : response)
    : outcome (option (gmap string json)) :=
  if negb (truthy api_key) then RaisesValueError
  else
    match resp with
    | CallRaises => RaisesApiError
    | ResponseText text =>
        if negb (truthy text) then Returns None
        else
          let response_text := strip text in
          let unfenced :=
            if String.prefix "```" response_text
            then match split_str "```" 0 response_text with
                 | _ :: part :: _ =>
                     Some (if String.prefix "json" part
                           then drop_chars 4 part else part)
                 | _ => None
                 end
            else Some response_text in
          match unfenced with
          | None => RaisesApiError
          | Some response_text =>
              let response_text := strip response_text in
              match json_loads response_text with
              | None => RaisesParseFailure
              | Some result =>
                  match validate result with
                  | None => RaisesApiError
                  | Some kept => Returns kept
                  end
              end
          end
    end.

(** The loop over [results] of [generate_multiple_recipes]. *)
Fixpoint collect (results : list json) (recipes : list (gmap string json))
    : option (list (gmap string json)) :=
  match results with
  | [] => Some recipes
  | result :: rest =>
      match validate result with
      | None => None
      | Some None => collect rest recipes
      | Some (Some d) => collect rest (recipes ++ [d])
      end
  end.

(** The body of [generate_multiple_recipes] from the answer of the client
    on. *)
Definition generate_multiple_recipes (api_key : string) (resp : response)
    : outcome (option (list (gmap string json))) :=
  if negb (truthy api_key) then RaisesValueError
  else
    match resp with
    | CallRaises => RaisesApiError
    | ResponseText text =>
        if negb (truthy text) then Returns None
        else
          let response_text := strip text in
          let response_text :=
            if contains "```" response_text
            then
              let parts := split_str "```" 0 response_text in
              let response_text :=
                match parts with
                | _ :: part :: _ => part
                | _ => response_text
                end in
              if String.prefix "json" response_text
              then drop_chars 4 response_text else response_text
            else response_text in
          let response_text := strip response_text in
          let start_idx := find_char "[" response_text in
          let end_idx := rfind_char "]" response_text in
          let json_str :=
            if negb (start_idx =? -1)%Z && negb (end_idx =? -1)%Z
               && (start_idx <? end_idx)%Z
            then slice start_idx (end_idx + 1) response_text
            else response_text in
          match json_loads json_str with
          | None => RaisesParseFailure
          | Some results =>
              match results with
              | JList (first :: others) =>
                  match collect (first :: others) [] with
                  | None => RaisesApiError
                  | Some [] => Returns None
                  | Some recipes => Returns (Some recipes)
                  end
              | _ => Returns None
              end
          end
    end.

End Generators.

(** [validate_api_key] *)
Definition validate_api_key (api_key : string) : bool := truthy api_key.

(** A recipe with the four required fields and a reason. *)
Definition complete_recipe (d : gmap string json) : Prop :=
  forall key, In key (required_keys ++ ["reason"]) -> is_Some (d !! key).

Definition is_backtick (c : ascii) : bool := (code c =? 96)%N.

(** A parsed answer and a stand-in for [json.loads] that yields it, to run
    the generators. *)
Definition sample_fields : gmap string json :=
  <[ "recipe_name" := JStr "Dal" ]>
    (<[ "ingredients" := JStr "lentils onion" ]>
       (<[ "cooking_time" := JNum 25 ]>
          (<[ "instructions" := JStr "Boil." ]> ∅))).

Definition sample_loads (text : string) : option json :=
  if String.eqb text "[1]"
  then Some (JList [JDict sample_fields; JDict ∅])
  else if String.eqb text "{}" then Some (JDict sample_fields)
  else None.

(** [part[4:] if part.startswith("json") else part] *)
Definition without_json_tag (part : string) : string :=
  if String.prefix "json" part then drop_chars 4 part else part.

(** The text from the first ["["] to the last ["]"] of [body], when both are
    there in that order, and [body] itself otherwise. *)
Definition array_part (body : string) : string :=
  if negb (find_char "[" body =? -1)%Z && negb (rfind_char "]" body =? -1)%Z
     && (find_char "[" body <? rfind_char "]" body)%Z
  then slice (find_char "[" body) (rfind_char "]" body + 1) body
  else body.

(** The JSON text of [sample_fields], the text of an array that holds it and
    an empty object, and a stand-in for [json.loads] that parses these two
    texts as [json.loads] does and no other text. *)
Definition dq : string := String "034" EmptyString.

Definition sample_text : string :=
  ("{" ++ dq ++ "recipe_name" ++ dq ++ ": " ++ dq ++ "Dal" ++ dq ++ ", "
   ++ dq ++ "ingredients" ++ dq ++ ": " ++ dq ++ "lentils onion" ++ dq ++ ", "
   ++ dq ++ "cooking_time" ++ dq ++ ": 25, "
   ++ dq ++ "instructions" ++ dq ++ ": " ++ dq ++ "Boil." ++ dq ++ "}")%string.

Definition sample_array_text : string :=
  ("[" ++ sample_text ++ ", {}]")%string.

Definition sample_json_loads (text : string) : option json :=
  if String.eqb text sample_text then Some (JDict sample_fields)
  else if String.eqb text sample_array_text
       then Some (JList [JDict sample_fields; JDict ∅])
       else None.

End AiEngine.

(** * Properties *)

(** ** De-duplication *)

Lemma truthy_true (s : string) : truthy s = true <-> s <> "".
Proof. destruct s; simpl; split; congruence. Qed.

Lemma index_of_Some_lt (x : string) (l : list string) (p : nat) :
  index_of x l = Some p -> (p < length l)%nat.
Proof.
  revert p. induction l as [|y l IH]; simpl; intros p H; [discriminate|].
  destruct (String.eqb x y).
  - injection H as <-. lia.
  - destruct (index_of x l) as [q|]; simpl in H; [|discriminate].
    injection H as <-. specialize (IH q eq_refl). lia.
Qed.

Lemma index_of_In (x : string) (l : list string) :
  In x l -> exists p, index_of x l = Some p.
Proof.
  induction l as [|y l IH]; simpl; [tauto|].
  intros Hin. destruct (String.eqb_spec x y) as [->|Hne]; [eauto|].
  destruct Hin as [->|Hin]; [congruence|].
  destruct (IH Hin) as [p ->]. simpl. eauto.
Qed.

Lemma index_of_app_l (x : string) (l l' : list string) (p : nat) :
  index_of x l = Some p -> index_of x (l ++ l') = Some p.
Proof.
  revert p. induction l as [|y l IH]; simpl; intros p H; [discriminate|].
  destruct (String.eqb x y); [exact H|].
  destruct (index_of x l) as [q|]; simpl in H; [|discriminate].
  rewrite (IH q eq_refl). exact H.
Qed.

Lemma index_of_app_fresh (x : string) (l : list string) :
  ~ In x l -> index_of x (l ++ [x]) = Some (length l).
Proof.
  induction l as [|y l IH]; simpl; intros Hn.
  - rewrite String.eqb_refl. reflexivity.
  - destruct (String.eqb_spec x y) as [->|Hne]; [tauto|].
    rewrite IH by tauto. reflexivity.
Qed.

Lemma dedup_inv_init : dedup_inv [] (∅, []).
Proof.
  split; simpl.
  - intros x. split; [intros H; exact (not_elem_of_empty (C:=gset string) x H)|tauto].
  - constructor.
  - intros x. tauto.
  - intros i j x y H. rewrite lookup_nil in H. discriminate.
Qed.

Lemma dedup_inv_step (pre : list string) (st : gset string * list string)
    (z : string) :
  dedup_inv pre st -> dedup_inv (pre ++ [z]) (dedup_step st z).
Proof.
  intros [Hseen Hnd Hel Hord]. destruct st as [seen acc]. simpl in *.
  unfold dedup_step.
  destruct (truthy z) eqn:Htz; simpl.
  2:{ apply not_true_iff_false in Htz. rewrite truthy_true in Htz.
      assert (z = "") as -> by (destruct (string_dec z ""); tauto).
      split; simpl; auto.
      - intros x. rewrite Hel, in_app_iff. simpl. intuition congruence.
      - intros i j x y Hi Hj Hlt.
        destruct (Hord i j x y Hi Hj Hlt) as (p & q & Hp & Hq & Hpq).
        exists p, q. auto using index_of_app_l. }
  apply truthy_true in Htz.
  destruct (bool_decide_reflect (z ∈ seen)) as [Hin|Hnin]; simpl.
  - split; simpl; auto.
    + intros x. rewrite Hel, in_app_iff. simpl.
      apply Hseen, Hel in Hin. intuition congruence.
    + intros i j x y Hi Hj Hlt.
      destruct (Hord i j x y Hi Hj Hlt) as (p & q & Hp & Hq & Hpq).
      exists p, q. auto using index_of_app_l.
  - assert (Hza : ~ In z acc) by (rewrite <- Hseen; exact Hnin).
    assert (Hzp : ~ In z pre) by (intros H; apply Hza, Hel; auto).
    split; simpl.
    + intros x. rewrite elem_of_union, elem_of_singleton, in_app_iff, Hseen.
      simpl. intuition congruence.
    + apply NoDup_ListNoDup, NoDup_app. rewrite NoDup_ListNoDup.
      split; [exact Hnd|]. split; [|apply NoDup_singleton].
      intros x Hx Hx'. apply list_elem_of_In in Hx.
      apply list_elem_of_singleton in Hx'. congruence.
    + intros x. rewrite !in_app_iff, Hel. simpl. intuition congruence.
    + intros i j x y Hi Hj Hlt.
      assert (Hjlen : (j < length (acc ++ [z]))%nat)
        by (apply lookup_lt_is_Some; eauto).
      rewrite length_app in Hjlen. simpl in Hjlen.
      assert (Hi' : acc !! i = Some x)
        by (rewrite lookup_app_l in Hi by lia; exact Hi).
      assert (Hxin : In x pre).
      { apply (Hel x), list_elem_of_In, list_elem_of_lookup. eauto. }
      destruct (decide (j < length acc)%nat) as [Hj'|Hj'].
      * rewrite lookup_app_l in Hj by lia.
        destruct (Hord i j x y Hi' Hj Hlt) as (p & q & Hp & Hq & Hpq).
        exists p, q. auto using index_of_app_l.
      * assert (j = length acc) as -> by lia.
        rewrite list_lookup_middle in Hj by reflexivity.
        injection Hj as <-.
        destruct (index_of_In x pre Hxin) as [p Hp].
        exists p, (length pre). split; [auto using index_of_app_l|].
        split; [apply index_of_app_fresh; exact Hzp|].
        eapply index_of_Some_lt; eauto.
Qed.

Lemma dedup_loop_inv (l : list string) : dedup_inv l (dedup_loop l).
Proof.
  unfold dedup_loop. induction l as [|z l IH] using rev_ind.
  - exact dedup_inv_init.
  - rewrite fold_left_app. simpl. apply dedup_inv_step, IH.
Qed.

Lemma normalize_ingredients_unfold (text : string) :
  normalize_ingredients text = (dedup_loop (normalized_fragments text)).2.
Proof. unfold normalize_ingredients. destruct (dedup_loop _); reflexivity. Qed.

Lemma normalize_ingredients_dedup_props (text : string) :
  List.NoDup (normalize_ingredients text)
  /\ (forall x, In x (normalize_ingredients text) <->
                In x (normalized_fragments text) /\ x <> "")
  /\ (forall i j x y,
        normalize_ingredients text !! i = Some x ->
        normalize_ingredients text !! j = Some y -> (i < j)%nat ->
        exists p q, index_of x (normalized_fragments text) = Some p
                    /\ index_of y (normalized_fragments text) = Some q
                    /\ (p < q)%nat).
Proof.
  rewrite normalize_ingredients_unfold.
  destruct (dedup_loop_inv (normalized_fragments text)) as [_ Hnd Hel Hord].
  auto.
Qed.

(** C2: the output of [normalize_ingredients] has no duplicate token, holds
    exactly the non-empty normalised fragments, and lists them in the order of
    their first occurrence; "Tomatoes, onion, tomato" gives
    ["tomato"; "onion"]. *)
Theorem normalize_ingredients_dedup_first_occurrence (text : string) :
  let out := normalize_ingredients text in
  let normalized := normalized_fragments text in
  List.NoDup out
  /\ (forall x, In x out <-> In x normalized /\ x <> "")
  /\ (forall i j x y,
        out !! i = Some x -> out !! j = Some y -> (i < j)%nat ->
        exists p q, index_of x normalized = Some p
                    /\ index_of y normalized = Some q /\ (p < q)%nat)
  /\ normalize_ingredients "Tomatoes, onion, tomato" = ["tomato"; "onion"].
Proof.
  cbv zeta.
  destruct (normalize_ingredients_dedup_props text)
    as (Hnd & Hel & Hord).
  split; [exact Hnd|]. split; [exact Hel|]. split; [exact Hord|].
  vm_compute. reflexivity.
Qed.

(** ** Alias resolution *)

Lemma entry_matches_In (c : string) (e : string * list string) :
  entry_matches c e = true <-> In c (entry_names e).
Proof.
  unfold entry_matches, entry_names. simpl.
  rewrite orb_true_iff, String.eqb_eq, existsb_exists. split.
  - intros [->|(a & Ha & Heq)]; [auto|].
    apply String.eqb_eq in Heq. subst. auto.
  - intros [<-|Hin]; [auto|]. right. exists c. rewrite String.eqb_refl. auto.
Qed.

Lemma alias_matches_existsb (c : string) (aliases : list string) :
  List.Forall (fun a => lower a = a) aliases ->
  alias_matches c aliases = existsb (String.eqb c) aliases.
Proof.
  induction 1 as [|a l Ha _ IH]; simpl; [reflexivity|].
  rewrite Ha, IH. destruct (String.eqb c a); reflexivity.
Qed.

Lemma resolve_alias_first_match (table : list (string * list string))
    (c : string) :
  List.Forall (fun e => List.Forall (fun a => lower a = a) e.2) table ->
  resolve_alias table c =
    match find (entry_matches c) table with
    | Some e => e.1
    | None => c
    end.
Proof.
  induction 1 as [|[k al] t Hk _ IH]; simpl; [reflexivity|].
  unfold entry_matches at 1. simpl in *.
  rewrite (alias_matches_existsb c al Hk).
  destruct (String.eqb c k); simpl; [reflexivity|].
  destruct (existsb (String.eqb c) al); [reflexivity|exact IH].
Qed.

Lemma find_entry_unique (table : list (string * list string)) (c : string)
    (e : string * list string) :
  List.NoDup (all_names table) -> In e table -> entry_matches c e = true ->
  find (entry_matches c) table = Some e.
Proof.
  unfold all_names.
  induction table as [|e0 t IH]; simpl; intros Hnd Hin Hm; [tauto|].
  change (List.NoDup (entry_names e0 ++ concat (map entry_names t))) in Hnd.
  destruct (entry_matches c e0) eqn:Hm0.
  - destruct Hin as [->|Hin]; [reflexivity|]. exfalso.
    apply entry_matches_In in Hm, Hm0.
    apply NoDup_ListNoDup, NoDup_app in Hnd. destruct Hnd as (_ & Hdisj & _).
    apply (Hdisj c); [apply list_elem_of_In; exact Hm0|].
    apply list_elem_of_In, in_concat. exists (entry_names e).
    split; [apply in_map; exact Hin|exact Hm].
  - destruct Hin as [->|Hin]; [congruence|].
    apply IH; auto.
    apply NoDup_ListNoDup, NoDup_app in Hnd. destruct Hnd as (_ & _ & Hnd).
    apply NoDup_ListNoDup. exact Hnd.
Qed.

Lemma resolve_alias_cases (table : list (string * list string)) (c : string) :
  resolve_alias table c = c \/ In (resolve_alias table c) (map fst table).
Proof.
  induction table as [|[k al] t IH]; simpl; [auto|].
  destruct (String.eqb c k); [auto|].
  destruct (alias_matches c al); [auto|]. tauto.
Qed.

(** Facts about the table itself, checked by evaluation. *)

Lemma aliases_lowercase :
  List.Forall (fun e => List.Forall (fun a => lower a = a) e.2)
              INGREDIENT_ALIASES.
Proof.
  refine (bool_decide_unpack _ _). vm_compute. exact I.
Qed.

Lemma table_names_distinct : List.NoDup (all_names INGREDIENT_ALIASES).
Proof.
  apply NoDup_ListNoDup.
  refine (bool_decide_unpack _ _). vm_compute. exact I.
Qed.

Lemma normalize_ingredient_first_match (s : string) :
  normalize_ingredient s =
    match find (entry_matches (clean s)) INGREDIENT_ALIASES with
    | Some e => e.1
    | None => clean s
    end.
Proof. apply resolve_alias_first_match, aliases_lowercase. Qed.

(** C6: alias resolution compares whole strings and takes the first entry of
    the table, in its written order, that matches: a cleaned fragment equal to
    a canonical name or to one of its aliases becomes that canonical name, any
    other is returned as cleaned; "Pyaz" gives ["onion"], "red onion" stays. *)
Theorem alias_resolution_exact_first_match (s : string) :
  normalize_ingredient s =
    match find (entry_matches (clean s)) INGREDIENT_ALIASES with
    | Some e => e.1
    | None => clean s
    end
  /\ (forall canonical aliases,
        In (canonical, aliases) INGREDIENT_ALIASES ->
        clean s = canonical \/ In (clean s) aliases ->
        normalize_ingredient s = canonical)
  /\ ((forall canonical aliases,
         In (canonical, aliases) INGREDIENT_ALIASES ->
         clean s <> canonical /\ ~ In (clean s) aliases) ->
      normalize_ingredient s = clean s)
  /\ normalize_ingredients "Pyaz" = ["onion"]
  /\ normalize_ingredient "red onion" = "red onion"
  /\ normalize_ingredients "red onion" = ["red onion"].
Proof.
  split; [apply normalize_ingredient_first_match|].
  split; [|split].
  - intros canonical aliases Hin Hm.
    rewrite normalize_ingredient_first_match.
    rewrite (find_entry_unique _ _ (canonical, aliases)); auto.
    + apply table_names_distinct.
    + apply entry_matches_In. unfold entry_names. simpl.
      destruct Hm as [->|Hm]; auto.
  - intros Hno. rewrite normalize_ingredient_first_match.
    destruct (find _ _) as [[k al]|] eqn:Hf; [|reflexivity].
    apply find_some in Hf. destruct Hf as [Hin Hm].
    apply entry_matches_In in Hm. unfold entry_names in Hm. simpl in Hm.
    destruct (Hno k al Hin) as [Hne Hni]. destruct Hm as [<-|Hm]; tauto.
  - vm_compute. auto.
Qed.

(** C10: the table has 29 entries, every canonical name is returned unchanged
    by [normalize_ingredient], and no canonical name occurs in an alias list. *)
Theorem canonical_names_are_fixed_points :
  length INGREDIENT_ALIASES = 29%nat
  /\ List.Forall (fun e => normalize_ingredient e.1 = e.1) INGREDIENT_ALIASES
  /\ List.Forall
       (fun e => List.Forall (fun e' => ~ In e.1 e'.2) INGREDIENT_ALIASES)
       INGREDIENT_ALIASES.
Proof.
  split; [reflexivity|]. split.
  - refine (bool_decide_unpack _ _). vm_compute. exact I.
  - apply List.Forall_forall. intros [k al] Hin.
    apply List.Forall_forall. intros [k' al'] Hin' Hk. simpl in Hk.
    pose proof table_names_distinct as Hnd.
    assert (Hf : find (entry_matches k) INGREDIENT_ALIASES = Some (k', al')).
    { apply find_entry_unique; auto. apply entry_matches_In.
      unfold entry_names. simpl. auto. }
    assert (Hf' : find (entry_matches k) INGREDIENT_ALIASES = Some (k, al)).
    { apply find_entry_unique; auto. apply entry_matches_In.
      unfold entry_names. simpl. auto. }
    rewrite Hf in Hf'. injection Hf' as Hk1 Hk2. subst k' al'.
    clear -Hin Hk Hnd. unfold all_names in Hnd.
    apply in_split in Hin. destruct Hin as (t1 & t2 & Heq).
    rewrite Heq, map_app, concat_app in Hnd. simpl in Hnd.
    apply NoDup_ListNoDup, NoDup_app in Hnd. destruct Hnd as (_ & _ & Hnd).
    apply NoDup_cons in Hnd. destruct Hnd as [Hnotin _].
    apply Hnotin, list_elem_of_In, in_app_iff. auto.
Qed.

(** ** Shape of the tokens *)

Lemma charset_ok_clean_steps (in_run : bool) (s : string) :
  charset_ok (sub_special (sub_ws_runs in_run s)) = true.
Proof.
  revert in_run. induction s as [|c s IH]; intros in_run; simpl; [reflexivity|].
  destruct (isspace c) eqn:Hsp.
  - destruct in_run; [apply IH|]. simpl. rewrite IH. reflexivity.
  - simpl. unfold keep_char. rewrite Hsp, orb_false_r.
    destruct (is_az c || is_digit c) eqn:Hk; [|apply IH].
    simpl. unfold token_char. rewrite Hk, IH. reflexivity.
Qed.

Lemma canonical_names_charset :
  List.Forall (fun e => charset_ok e.1 = true) INGREDIENT_ALIASES.
Proof. refine (bool_decide_unpack _ _). vm_compute. exact I. Qed.

(** The part of the token shape that does hold: only [a-z], [0-9] and the
    space character survive. *)
Lemma normalize_ingredient_charset (s : string) :
  charset_ok (normalize_ingredient s) = true.
Proof.
  unfold normalize_ingredient.
  destruct (resolve_alias_cases INGREDIENT_ALIASES (clean s)) as [->|Hin].
  - apply charset_ok_clean_steps.
  - apply in_map_iff in Hin. destruct Hin as (e & <- & Hin).
    pose proof canonical_names_charset as H.
    rewrite List.Forall_forall in H. exact (H e Hin).
Qed.

Lemma normalize_ingredients_charset (text tok : string) :
  In tok (normalize_ingredients text) -> charset_ok tok = true.
Proof.
  intros Hin.
  destruct (normalize_ingredients_dedup_props text) as (_ & Hel & _).
  apply Hel in Hin. destruct Hin as [Hin _].
  unfold normalized_fragments in Hin. apply in_map_iff in Hin.
  destruct Hin as (s & <- & _). apply normalize_ingredient_charset.
Qed.

(** C9: special characters are removed after whitespace has been stripped and
    collapsed, so the spaces around a removed character stay: "salt & pepper"
    gives a token with two consecutive spaces and "- salt" one with a leading
    space. *)
Theorem normalize_leaves_extra_whitespace :
  normalize_ingredients "salt & pepper" = ["salt  pepper"]
  /\ no_double_space "salt  pepper" = false
  /\ normalize_ingredients "- salt" = [" salt"]
  /\ no_outer_whitespace " salt" = false.
Proof. vm_compute. auto. Qed.

(** ** Overlap *)

Lemma split_on_length (sep : ascii -> bool) (s : string) :
  (0 < length (split_on sep s))%nat.
Proof.
  induction s as [|c s IH]; simpl; [lia|].
  destruct (sep c); simpl; [lia|].
  destruct (split_on sep s); simpl in *; lia.
Qed.

Lemma of_len_pos (n : nat) : (0 < n)%nat -> 0 < of_len n.
Proof.
  intros H. unfold of_len. change 0 with (inject_Z 0).
  rewrite <- Zlt_Qlt. lia.
Qed.

Lemma of_len_le (m n : nat) : (m <= n)%nat -> of_len m <= of_len n.
Proof. intros H. unfold of_len. rewrite <- Zle_Qle. lia. Qed.

Lemma truediv_nonzero (a b : Q) : ~ b == 0 -> truediv a b = Value (a / b).
Proof.
  intros H. unfold truediv. destruct (Qeq_bool b 0) eqn:E; [|reflexivity].
  apply Qeq_bool_iff in E. contradiction.
Qed.

Lemma truediv_zero (a b : Q) : b == 0 -> truediv a b = Raise ZeroDivisionError.
Proof.
  intros H. unfold truediv. apply Qeq_bool_iff in H. rewrite H. reflexivity.
Qed.

(** The guard [len(recipe_ing_list) == 0] never fires and the division never
    raises: the overlap is [matches / pieces * 100] with at least one piece. *)
Lemma calculate_ingredient_overlap_total (recipe_ingredients : string)
    (user_ingredients : list string) :
  exists matches pieces : nat,
    (matches <= pieces)%nat /\ (0 < pieces)%nat
    /\ pieces = length (split_on is_comma recipe_ingredients)
    /\ calculate_ingredient_overlap recipe_ingredients user_ingredients
       = Value (of_len matches / of_len pieces * 100).
Proof.
  unfold calculate_ingredient_overlap.
  set (l := map _ (split_on is_comma recipe_ingredients)).
  set (m := length (List.filter _ l)).
  assert (Hlen : length l = length (split_on is_comma recipe_ingredients))
    by apply length_map.
  pose proof (split_on_length is_comma recipe_ingredients) as Hpos.
  exists m, (length l). split; [apply filter_length_le|].
  split; [lia|]. split; [exact Hlen|].
  destruct (Nat.eqb_spec (length l) 0) as [E|_]; [lia|].
  rewrite truediv_nonzero; [reflexivity|].
  intros H. pose proof (of_len_pos (length l)) as Hp. rewrite H in Hp.
  apply (Qlt_irrefl 0), Hp. lia.
Qed.

Lemma calculate_ingredient_overlap_range (recipe_ingredients : string)
    (user_ingredients : list string) :
  exists o, calculate_ingredient_overlap recipe_ingredients user_ingredients
            = Value o /\ 0 <= o /\ o <= 100.
Proof.
  destruct (calculate_ingredient_overlap_total recipe_ingredients
              user_ingredients) as (m & n & Hle & Hpos & _ & ->).
  eexists. split; [reflexivity|].
  pose proof (of_len_pos n Hpos) as Hn.
  pose proof (of_len_le m n Hle) as Hmn.
  assert (H0 : 0 <= of_len m).
  { unfold of_len. change 0 with (inject_Z 0). rewrite <- Zle_Qle. lia. }
  assert (Hr0 : 0 <= of_len m / of_len n).
  { apply Qle_shift_div_l; [exact Hn|]. lra. }
  assert (Hr1 : of_len m / of_len n <= 1).
  { apply Qle_shift_div_r; [exact Hn|]. lra. }
  split; lra.
Qed.

Lemma calculate_ingredient_overlap_value (recipe_ingredients : string)
    (user_ingredients : list string) :
  calculate_ingredient_overlap recipe_ingredients user_ingredients
  = Value (overlap_of recipe_ingredients user_ingredients).
Proof.
  unfold overlap_of.
  destruct (calculate_ingredient_overlap_range recipe_ingredients
              user_ingredients) as (o & -> & _).
  reflexivity.
Qed.

(** Without an empty token among the user's ingredients, the empty ingredient
    string scores 0. *)
Lemma overlap_empty_recipe_without_empty_token (user_ingredients : list string) :
  ~ In "" user_ingredients ->
  calculate_ingredient_overlap "" user_ingredients = Value 0.
Proof.
  intros Hn. unfold calculate_ingredient_overlap. simpl.
  destruct (bool_decide_reflect
              ("" ∈ (list_to_set user_ingredients : gset string))) as [H|H].
  - apply elem_of_list_to_set, list_elem_of_In in H. contradiction.
  - reflexivity.
Qed.

(** How the result 0 comes about: the empty ingredient string splits into one
    piece, the empty string, so the guard for zero pieces is not what returns;
    a list holding an empty token, which the normaliser never produces, would
    match that piece. *)
Lemma overlap_empty_recipe_counts_one_piece :
  split_on is_comma "" = [""]
  /\ calculate_ingredient_overlap "" [""] = Value 100
  /\ calculate_ingredient_overlap "" ["tomato"; ""] = Value 100.
Proof. vm_compute. auto. Qed.

(** The lists that [normalize_ingredients] returns hold no empty token. *)
Lemma normalize_ingredients_no_empty_token (text : string) :
  ~ In "" (normalize_ingredients text).
Proof.
  intros Hin.
  destruct (normalize_ingredients_dedup_props text) as (_ & Hel & _).
  apply Hel in Hin. tauto.
Qed.

Lemma overlap_empty_recipe_of_normalized_text (text : string) :
  calculate_ingredient_overlap "" (normalize_ingredients text) = Value 0.
Proof.
  apply overlap_empty_recipe_without_empty_token,
    normalize_ingredients_no_empty_token.
Qed.

(** C7: for every list of normalised user ingredients, that is every list
    without an empty token, as [normalize_ingredients] always returns, the
    overlap of the empty ingredient string is returned, not raised, and is 0:
    no division by zero occurs. *)
Theorem overlap_empty_recipe_is_zero (user_ingredients : list string) :
  ~ In "" user_ingredients ->
  calculate_ingredient_overlap "" user_ingredients = Value 0.
Proof.
  intros Hn. unfold calculate_ingredient_overlap.
  assert (Hlen : length (map (fun ing => lower (strip ing))
                             (split_on is_comma "")) = 1%nat) by reflexivity.
  change (split_on is_comma "") with [""] in *. cbn [map length Nat.eqb].
  change (lower (strip "")) with "". cbn [List.filter].
  destruct (bool_decide_reflect
              ("" ∈ (list_to_set user_ingredients : gset string))) as [H|H].
  - apply elem_of_list_to_set, list_elem_of_In in H. contradiction.
  - reflexivity.
Qed.

Lemma overlap_empty_recipe_is_zero_witness :
  ~ In "" (normalize_ingredients "Tomatoes, onion")
  /\ calculate_ingredient_overlap "" (normalize_ingredients "Tomatoes, onion")
     = Value 0.
Proof.
  assert (H : ~ In "" (normalize_ingredients "Tomatoes, onion"))
    by (vm_compute; intuition discriminate).
  split; [exact H|].
  exact (overlap_empty_recipe_is_zero (normalize_ingredients "Tomatoes, onion")
           H).
Defined.

(** ** Scoring *)

Lemma py_min_Qmin (a b : Q) : py_min a b == Qmin a b.
Proof.
  unfold py_min, Qlt_bool. destruct (Qle_bool a b) eqn:E; simpl.
  - apply Qle_bool_iff in E. symmetry. apply Q.min_l. exact E.
  - assert (H : ~ a <= b) by (rewrite <- Qle_bool_iff; congruence).
    symmetry. apply Q.min_r. lra.
Qed.

Lemma py_max_Qmax (a b : Q) : py_max a b == Qmax a b.
Proof.
  unfold py_max, Qlt_bool. destruct (Qle_bool b a) eqn:E; simpl.
  - apply Qle_bool_iff in E. symmetry. apply Q.max_l. exact E.
  - assert (H : ~ b <= a) by (rewrite <- Qle_bool_iff; congruence).
    symmetry. apply Q.max_r. lra.
Qed.

Lemma of_int_zero (z : Z) : of_int z == 0 <-> z = 0%Z.
Proof.
  unfold of_int. change 0 with (inject_Z 0). rewrite inject_Z_injective.
  reflexivity.
Qed.

Lemma score_recipe_value (recipe : Row) (user_ingredients : list string)
    (cooking_time_limit : Z) :
  cooking_time_limit <> 0%Z ->
  score_recipe recipe user_ingredients cooking_time_limit
  = Value (py_min
             (py_min (overlap_of (ingredients recipe) user_ingredients) 100
                * (4 # 10)
              + py_max 0 (100 - of_int (cooking_time recipe)
                                / of_int cooking_time_limit * 100)
                * (3 # 10)
              + 30)
             100).
Proof.
  intros Hnz. unfold score_recipe.
  rewrite calculate_ingredient_overlap_value. cbn [bind].
  rewrite truediv_nonzero by (rewrite of_int_zero; exact Hnz).
  reflexivity.
Qed.

Lemma score_recipe_spec (recipe : Row) (user_ingredients : list string)
    (cooking_time_limit : Z) (s : Q) :
  score_recipe recipe user_ingredients cooking_time_limit = Value s ->
  s == score_spec (overlap_of (ingredients recipe) user_ingredients)
                  (cooking_time recipe) cooking_time_limit.
Proof.
  destruct (Z.eq_dec cooking_time_limit 0%Z) as [->|Hnz].
  - unfold score_recipe. rewrite calculate_ingredient_overlap_value.
    cbn [bind]. rewrite truediv_zero by reflexivity. discriminate.
  - rewrite score_recipe_value by exact Hnz. intros [= <-].
    unfold score_spec.
    rewrite py_min_Qmin, py_min_Qmin, py_max_Qmax. reflexivity.
Qed.

Lemma time_ratio_mono (t1 t2 limit : Z) :
  (0 < limit)%Z -> (t1 <= t2)%Z ->
  of_int t1 / of_int limit <= of_int t2 / of_int limit.
Proof.
  intros Hl Ht. unfold Qdiv. apply Qmult_le_compat_r.
  - unfold of_int. rewrite <- Zle_Qle. exact Ht.
  - apply Qinv_le_0_compat. unfold of_int. change 0 with (inject_Z 0).
    rewrite <- Zle_Qle. lia.
Qed.

Lemma time_ratio_ge_1 (t limit : Z) :
  (0 < limit)%Z -> (limit <= t)%Z -> 1 <= of_int t / of_int limit.
Proof.
  intros Hl Ht. apply Qle_shift_div_l.
  - unfold of_int. change 0 with (inject_Z 0). rewrite <- Zlt_Qlt. exact Hl.
  - rewrite Qmult_1_l. unfold of_int. rewrite <- Zle_Qle. exact Ht.
Qed.

(** C3 as stated fails: a negative time limit is not rejected, the scorer
    returns a number. *)
Lemma negative_time_limit_returns_score :
  (-30 <= 0)%Z
  /\ score_recipe pasta ["pasta"; "tomato"; "basil"] (-30) = Value 100
  /\ ~ (forall recipe user_ingredients cooking_time_limit,
         (cooking_time_limit <= 0)%Z ->
         exists e, score_recipe recipe user_ingredients cooking_time_limit
                   = Raise e).
Proof.
  split; [lia|]. split; [vm_compute; reflexivity|].
  intros H.
  destruct (H pasta ["pasta"; "tomato"; "basil"] (-30)%Z) as [e He]; [lia|].
  vm_compute in He. discriminate.
Qed.

(** C3, amended: the scorer raises exactly when the time limit is zero, and
    the error is the division error; for every other limit, negative ones
    included, it returns a number. *)
Theorem score_recipe_raises_iff_zero_limit (recipe : Row)
    (user_ingredients : list string) (cooking_time_limit : Z) :
  (score_recipe recipe user_ingredients cooking_time_limit
   = Raise ZeroDivisionError <-> cooking_time_limit = 0%Z)
  /\ ((exists s, score_recipe recipe user_ingredients cooking_time_limit
                 = Value s) <-> cooking_time_limit <> 0%Z).
Proof.
  destruct (Z.eq_dec cooking_time_limit 0%Z) as [->|Hnz].
  - assert (E : score_recipe recipe user_ingredients 0
                = Raise ZeroDivisionError).
    { unfold score_recipe. rewrite calculate_ingredient_overlap_value.
      cbn [bind]. rewrite truediv_zero by reflexivity. reflexivity. }
    rewrite E. split; split; try tauto; try congruence.
    intros [s Hs]. discriminate.
  - rewrite score_recipe_value by exact Hnz.
    split; split; try tauto; try congruence; eauto.
Qed.

(** C4: for a positive cooking time and a positive time limit the scorer
    returns the clamped weighted sum; the score lies between 30 and 100, and is
    30 when the overlap is 0 and the cooking time reaches the limit. *)
Theorem score_recipe_formula_and_bounds (recipe : Row)
    (user_ingredients : list string) (cooking_time_limit : Z) :
  (0 < cooking_time recipe)%Z -> (0 < cooking_time_limit)%Z ->
  exists overlap s,
    calculate_ingredient_overlap (ingredients recipe) user_ingredients
    = Value overlap
    /\ score_recipe recipe user_ingredients cooking_time_limit = Value s
    /\ s == score_spec overlap (cooking_time recipe) cooking_time_limit
    /\ 30 <= s /\ s <= 100
    /\ (overlap == 0 -> (cooking_time_limit <= cooking_time recipe)%Z ->
        s == 30).
Proof.
  intros _ Hl.
  destruct (calculate_ingredient_overlap_range (ingredients recipe)
              user_ingredients) as (o & Ho & Ho0 & Ho100).
  assert (Hov : overlap_of (ingredients recipe) user_ingredients = o)
    by (unfold overlap_of; rewrite Ho; reflexivity).
  exists o. eexists. split; [exact Ho|].
  split; [apply score_recipe_value; lia|].
  rewrite Hov.
  set (ratio := of_int (cooking_time recipe) / of_int cooking_time_limit).
  assert (Hspec :
    py_min (py_min o 100 * (4 # 10) + py_max 0 (100 - ratio * 100) * (3 # 10)
            + 30) 100
    == score_spec o (cooking_time recipe) cooking_time_limit).
  { unfold score_spec. fold ratio.
    rewrite py_min_Qmin, py_min_Qmin, py_max_Qmax. reflexivity. }
  split; [exact Hspec|].
  rewrite Hspec. unfold score_spec. fold ratio.
  pose proof (Q.le_min_l o 100) as Hm1.
  pose proof (Q.le_max_l 0 (100 - ratio * 100)) as Hx.
  assert (Hmin_o : Qmin o 100 == o) by (apply Q.min_l; exact Ho100).
  split; [|split].
  - apply Q.min_glb; [|lra]. rewrite Hmin_o. lra.
  - apply Q.le_min_r.
  - intros Hz Hge.
    pose proof (time_ratio_ge_1 _ _ Hl Hge) as Hr. fold ratio in Hr.
    assert (Hmax : Qmax 0 (100 - ratio * 100) == 0) by (apply Q.max_l; lra).
    rewrite Hmin_o, Hmax, Hz. rewrite Q.min_l by lra. lra.
Qed.

(** C5: with the ingredients, the user's list and a positive time limit
    fixed, a longer cooking time never scores higher. *)
Theorem score_recipe_antitone_in_cooking_time (recipe : Row)
    (user_ingredients : list string) (cooking_time_limit t1 t2 : Z) :
  (0 < cooking_time_limit)%Z -> (t1 <= t2)%Z ->
  exists s1 s2,
    score_recipe (set_cooking_time recipe t1) user_ingredients
                 cooking_time_limit = Value s1
    /\ score_recipe (set_cooking_time recipe t2) user_ingredients
                    cooking_time_limit = Value s2
    /\ s2 <= s1.
Proof.
  intros Hl Ht. do 2 eexists.
  split; [apply score_recipe_value; lia|].
  split; [apply score_recipe_value; lia|].
  simpl.
  pose proof (time_ratio_mono t1 t2 cooking_time_limit Hl Ht) as Hr.
  set (r1 := of_int t1 / of_int cooking_time_limit) in *.
  set (r2 := of_int t2 / of_int cooking_time_limit) in *.
  set (a := py_min (overlap_of (ingredients recipe) user_ingredients) 100
            * (4 # 10)).
  rewrite !py_min_Qmin, !py_max_Qmax.
  apply Q.min_le_compat_r.
  assert (Hmax : Qmax 0 (100 - r2 * 100) <= Qmax 0 (100 - r1 * 100))
    by (apply Q.max_le_compat_l; lra).
  lra.
Qed.

(** ** Filtering *)

Lemma map_result_total {A B : Type} (f : A -> result B) (g : A -> B)
    (l : list A) :
  (forall a, f a = Value (g a)) -> map_result f l = Value (map g l).
Proof.
  intros H. induction l as [|a l IH]; simpl; [reflexivity|].
  rewrite H, IH. reflexivity.
Qed.

Lemma filter_all_true {A : Type} (p : A -> bool) (l : list A) :
  List.Forall (fun a => p a = true) l -> List.filter p l = l.
Proof.
  induction 1 as [|a l Ha _ IH]; simpl; [reflexivity|].
  rewrite Ha, IH. reflexivity.
Qed.

Lemma map_fixed {A : Type} (f : A -> A) (l : list A) :
  List.Forall (fun a => f a = a) l -> map f l = l.
Proof.
  induction 1 as [|a l Ha _ IH]; simpl; [reflexivity|].
  rewrite Ha, IH. reflexivity.
Qed.

Lemma narrowed_In (recipes_df : list Row) (max_cooking_time : Z)
    (meal_type' cuisine' : string) (r : Row) :
  In r (narrowed recipes_df max_cooking_time meal_type' cuisine') <->
  In r recipes_df /\ (cooking_time r <= max_cooking_time)%Z
  /\ lower (meal_type r) = lower meal_type'
  /\ lower (cuisine r) = lower cuisine'.
Proof.
  unfold narrowed. rewrite !filter_In, !String.eqb_eq, Z.leb_le. tauto.
Qed.

Lemma filter_recipes_value (sort_values : list Row -> list Row)
    (recipes_df : list Row) (user_ingredients : list string)
    (max_cooking_time : Z) (meal_type' cuisine' : string) (min_overlap : Q) :
  filter_recipes sort_values recipes_df user_ingredients max_cooking_time
                 meal_type' cuisine' min_overlap
  = Value (sort_values
             (List.filter (overlap_at_least (min_overlap * 100))
                (map (annotate user_ingredients)
                   (narrowed recipes_df max_cooking_time meal_type'
                             cuisine')))).
Proof.
  unfold filter_recipes. cbv zeta. fold (narrowed recipes_df max_cooking_time
                                          meal_type' cuisine').
  rewrite (map_result_total _ (annotate user_ingredients)); [reflexivity|].
  intros r. rewrite calculate_ingredient_overlap_value. reflexivity.
Qed.

Lemma StronglySorted_overlap_ge (l : list Row) :
  StronglySorted overlap_desc l ->
  List.Forall (fun r => exists o, ingredient_overlap r = Some o) l ->
  StronglySorted overlap_ge l.
Proof.
  induction 1 as [|a l Hl IH Ha]; intros Hs; constructor.
  - apply IH. inversion Hs; assumption.
  - inversion Hs as [|? ? [x Hx] Hs']; subst.
    rewrite List.Forall_forall in Ha, Hs' |- *.
    intros b Hb. destruct (Hs' b Hb) as [y Hy].
    specialize (Ha b Hb). unfold overlap_desc in Ha. rewrite Hx, Hy in Ha.
    exists x, y. auto.
Qed.

#[global] Instance overlap_desc_trans : Transitive overlap_desc.
Proof.
  intros a b c. unfold overlap_desc.
  destruct (ingredient_overlap a), (ingredient_overlap b),
    (ingredient_overlap c); try tauto.
  intros H1 H2. lra.
Qed.

#[global] Instance overlap_desc_total : Total overlap_desc.
Proof.
  intros a b. unfold overlap_desc.
  destruct (ingredient_overlap a) as [x|], (ingredient_overlap b) as [y|];
    try tauto.
  destruct (Qlt_le_dec x y); [right|left]; lra.
Qed.

Lemma stable_sort_desc_perm (l : list Row) : Permutation (stable_sort_desc l) l.
Proof. apply merge_sort_Permutation. Qed.

Lemma stable_sort_desc_sorted (l : list Row) :
  StronglySorted overlap_desc (stable_sort_desc l).
Proof. apply StronglySorted_merge_sort; apply _. Qed.

Section FilterProperties.

Variable sort_values : list Row -> list Row.
Hypothesis sort_values_perm : forall l, Permutation (sort_values l) l.
Hypothesis sort_values_sorted :
  forall l, StronglySorted overlap_desc (sort_values l).

Variables (user_ingredients : list string) (max_cooking_time : Z)
          (meal_type' cuisine' : string) (min_overlap : Q).

Local Abbreviation accepted :=
  (accepted_row user_ingredients max_cooking_time meal_type' cuisine'
                min_overlap).

Lemma kept_rows_accepted (recipes_df : list Row) (r : Row) :
  In r (List.filter (overlap_at_least (min_overlap * 100))
          (map (annotate user_ingredients)
             (narrowed recipes_df max_cooking_time meal_type' cuisine'))) ->
  accepted r /\ annotate user_ingredients r = r.
Proof.
  rewrite filter_In, in_map_iff. intros [(r0 & <- & Hin) Hov].
  apply narrowed_In in Hin. destruct Hin as (_ & Ht & Hm & Hc).
  split; [|reflexivity].
  unfold accepted_row. simpl. repeat (split; [assumption|]).
  exists (overlap_of (ingredients r0) user_ingredients).
  split; [reflexivity|].
  split; [apply calculate_ingredient_overlap_value|].
  unfold overlap_at_least in Hov. simpl in Hov.
  apply Qle_bool_iff. exact Hov.
Qed.

(** C1: [filter_recipes] returns, and every row it returns is within the
    time limit, has the queried meal type and cuisine up to letter case and
    carries an overlap of at least [min_overlap * 100]; the rows come in
    descending order of overlap. *)
Theorem filter_recipes_rows_accepted_and_sorted (recipes_df : list Row) :
  exists out,
    filter_recipes sort_values recipes_df user_ingredients max_cooking_time
                   meal_type' cuisine' min_overlap = Value out
    /\ List.Forall accepted out
    /\ StronglySorted overlap_ge out.
Proof.
  eexists. split; [apply filter_recipes_value|].
  set (kept := List.filter _ _).
  assert (Hadm : List.Forall accepted (sort_values kept)).
  { apply List.Forall_forall. intros r Hr.
    apply (Permutation_in _ (sort_values_perm kept)) in Hr.
    apply (kept_rows_accepted recipes_df), Hr. }
  split; [exact Hadm|].
  apply StronglySorted_overlap_ge; [apply sort_values_sorted|].
  eapply List.Forall_impl; [|exact Hadm].
  intros r (_ & _ & _ & o & Ho & _). eauto.
Qed.

(** C8: filtering the output of [filter_recipes] again with the same
    arguments returns the same rows. *)
Theorem filter_recipes_idempotent (recipes_df : list Row) :
  exists out out',
    filter_recipes sort_values recipes_df user_ingredients max_cooking_time
                   meal_type' cuisine' min_overlap = Value out
    /\ filter_recipes sort_values out user_ingredients max_cooking_time
                      meal_type' cuisine' min_overlap = Value out'
    /\ Permutation out' out.
Proof.
  do 2 eexists. split; [apply filter_recipes_value|].
  split; [apply filter_recipes_value|].
  set (kept := List.filter _ (map _ (narrowed recipes_df _ _ _))).
  assert (Hout : forall r, In r (sort_values kept) ->
                           accepted r /\ annotate user_ingredients r = r).
  { intros r Hr. apply (Permutation_in _ (sort_values_perm kept)) in Hr.
    apply (kept_rows_accepted recipes_df), Hr. }
  assert (Hnarrow : narrowed (sort_values kept) max_cooking_time meal_type'
                             cuisine' = sort_values kept).
  { assert (H1 : List.Forall
                   (fun r => (cooking_time r <=? max_cooking_time)%Z = true)
                   (sort_values kept)).
    { apply List.Forall_forall. intros r Hr.
      destruct (Hout r Hr) as [(Ht & _) _]. apply Z.leb_le, Ht. }
    assert (H2 : List.Forall
                   (fun r => String.eqb (lower (meal_type r))
                                        (lower meal_type') = true)
                   (sort_values kept)).
    { apply List.Forall_forall. intros r Hr.
      destruct (Hout r Hr) as [(_ & Hm & _) _]. apply String.eqb_eq, Hm. }
    assert (H3 : List.Forall
                   (fun r => String.eqb (lower (cuisine r))
                                        (lower cuisine') = true)
                   (sort_values kept)).
    { apply List.Forall_forall. intros r Hr.
      destruct (Hout r Hr) as [(_ & _ & Hc & _) _]. apply String.eqb_eq, Hc. }
    unfold narrowed.
    rewrite (filter_all_true _ _ H1), (filter_all_true _ _ H2).
    apply (filter_all_true _ _ H3). }
  rewrite Hnarrow.
  rewrite map_fixed
    by (apply List.Forall_forall; intros r Hr; apply (Hout r Hr)).
  rewrite filter_all_true; [apply sort_values_perm|].
  apply List.Forall_forall. intros r Hr.
  destruct (Hout r Hr) as [(_ & _ & _ & o & Ho & _ & Hle) _].
  unfold overlap_at_least. rewrite Ho. apply Qle_bool_iff, Hle.
Qed.

End FilterProperties.

(** ** The properties at the sample catalog *)

Example filter_recipes_sample :
  filter_recipes stable_sort_desc catalog ["pasta"; "tomato"; "basil"; "bread"]
                 30 "Dinner" "Italian" (6 # 10)
  = Value [set_ingredient_overlap pasta (300 # 3);
           set_ingredient_overlap bruschetta (300 # 4)].
Proof. vm_compute. reflexivity. Qed.

Lemma filter_recipes_rows_accepted_and_sorted_witness :
  (forall l, Permutation (stable_sort_desc l) l)
  /\ (forall l, StronglySorted overlap_desc (stable_sort_desc l))
  /\ exists out,
       filter_recipes stable_sort_desc catalog
                      ["pasta"; "tomato"; "basil"; "bread"] 30 "Dinner"
                      "Italian" (6 # 10) = Value out
       /\ List.Forall
            (accepted_row ["pasta"; "tomato"; "basil"; "bread"] 30 "Dinner"
                          "Italian" (6 # 10)) out
       /\ StronglySorted overlap_ge out.
Proof.
  split; [exact stable_sort_desc_perm|].
  split; [exact stable_sort_desc_sorted|].
  exact (filter_recipes_rows_accepted_and_sorted stable_sort_desc
           stable_sort_desc_perm stable_sort_desc_sorted
           ["pasta"; "tomato"; "basil"; "bread"] 30%Z "Dinner" "Italian"
           (6 # 10) catalog).
Defined.

Lemma filter_recipes_idempotent_witness :
  (forall l, Permutation (stable_sort_desc l) l)
  /\ exists out out',
       filter_recipes stable_sort_desc catalog
                      ["pasta"; "tomato"; "basil"; "bread"] 30 "Dinner"
                      "Italian" (6 # 10) = Value out
       /\ filter_recipes stable_sort_desc out
                         ["pasta"; "tomato"; "basil"; "bread"] 30 "Dinner"
                         "Italian" (6 # 10) = Value out'
       /\ Permutation out' out.
Proof.
  split; [exact stable_sort_desc_perm|].
  exact (filter_recipes_idempotent stable_sort_desc stable_sort_desc_perm
           ["pasta"; "tomato"; "basil"; "bread"] 30%Z "Dinner" "Italian"
           (6 # 10) catalog).
Defined.

Lemma score_recipe_formula_and_bounds_witness :
  (0 < cooking_time risotto)%Z /\ (0 < 30)%Z
  /\ exists overlap s,
       calculate_ingredient_overlap (ingredients risotto)
                                    ["pasta"; "tomato"; "basil"]
       = Value overlap
       /\ score_recipe risotto ["pasta"; "tomato"; "basil"] 30 = Value s
       /\ s == score_spec overlap (cooking_time risotto) 30
       /\ 30 <= s /\ s <= 100
       /\ (overlap == 0 -> (30 <= cooking_time risotto)%Z -> s == 30).
Proof.
  split; [reflexivity|]. split; [reflexivity|].
  apply (score_recipe_formula_and_bounds risotto
           ["pasta"; "tomato"; "basil"] 30%Z); reflexivity.
Defined.

Lemma score_recipe_antitone_in_cooking_time_witness :
  (0 < 30)%Z /\ (10 <= 20)%Z
  /\ exists s1 s2,
       score_recipe (set_cooking_time pasta 10) ["pasta"; "tomato"] 30
       = Value s1
       /\ score_recipe (set_cooking_time pasta 20) ["pasta"; "tomato"] 30
          = Value s2
       /\ s2 <= s1.
Proof.
  split; [reflexivity|]. split; [discriminate|].
  apply (score_recipe_antitone_in_cooking_time pasta ["pasta"; "tomato"]
           30%Z 10%Z 20%Z); [reflexivity|discriminate].
Defined.

(** * Further properties *)

(** ** Characters and strings *)

Lemma lower_char_idem (c : ascii) : lower_char (lower_char c) = lower_char c.
Proof. destruct c as [[] [] [] [] [] [] [] []]; reflexivity. Qed.

Lemma isspace_lower_char (c : ascii) : isspace (lower_char c) = isspace c.
Proof. destruct c as [[] [] [] [] [] [] [] []]; reflexivity. Qed.

Lemma is_comma_lower_char (c : ascii) : is_comma (lower_char c) = is_comma c.
Proof. destruct c as [[] [] [] [] [] [] [] []]; reflexivity. Qed.

Lemma lower_idem (s : string) : lower (lower s) = lower s.
Proof.
  induction s as [|c s IH]; simpl; [reflexivity|].
  rewrite lower_char_idem, IH. reflexivity.
Qed.

Lemma lstrip_lower (s : string) : lstrip (lower s) = lower (lstrip s).
Proof.
  induction s as [|c s IH]; simpl; [reflexivity|].
  rewrite isspace_lower_char. destruct (isspace c); [exact IH|reflexivity].
Qed.

Lemma rstrip_lower (s : string) : rstrip (lower s) = lower (rstrip s).
Proof.
  induction s as [|c s IH]; simpl; [reflexivity|].
  rewrite IH, isspace_lower_char.
  destruct (rstrip s); simpl; [destruct (isspace c)|]; reflexivity.
Qed.

Lemma strip_lower (s : string) : strip (lower s) = lower (strip s).
Proof. unfold strip. rewrite rstrip_lower, lstrip_lower. reflexivity. Qed.

Lemma rstrip_idem (s : string) : rstrip (rstrip s) = rstrip s.
Proof.
  induction s as [|c s IH]; simpl; [reflexivity|].
  destruct (rstrip s) as [|d r] eqn:E.
  - destruct (isspace c) eqn:Hc; simpl; [reflexivity|]. rewrite Hc. reflexivity.
  - simpl in *. rewrite IH. reflexivity.
Qed.

Lemma rstrip_fixed_tail (c : ascii) (s : string) :
  rstrip (String c s) = String c s -> rstrip s = s.
Proof.
  simpl. destruct (rstrip s) as [|d r] eqn:E.
  - destruct (isspace c); [discriminate|]. intros [= <-]. reflexivity.
  - intros [= <-]. reflexivity.
Qed.

Lemma rstrip_lstrip_fixed (s : string) :
  rstrip s = s -> rstrip (lstrip s) = lstrip s.
Proof.
  induction s as [|c s IH]; intros H; [reflexivity|].
  cbn [lstrip]. destruct (isspace c); [|exact H].
  apply IH. exact (rstrip_fixed_tail c s H).
Qed.

Lemma lstrip_idem (s : string) : lstrip (lstrip s) = lstrip s.
Proof.
  induction s as [|c s IH]; simpl; [reflexivity|].
  destruct (isspace c) eqn:Hc; [exact IH|]. simpl. rewrite Hc. reflexivity.
Qed.

Lemma strip_idem (s : string) : strip (strip s) = strip s.
Proof.
  unfold strip.
  rewrite (rstrip_lstrip_fixed (rstrip s)) by apply rstrip_idem.
  apply lstrip_idem.
Qed.

(** ** The candidate selector *)

Lemma fold_left_append_map {A B : Type} (f : A -> B) (l : list A)
    (acc : list B) :
  fold_left (fun candidates row => candidates ++ [f row]) l acc
  = acc ++ map f l.
Proof.
  revert acc. induction l as [|a l IH]; intros acc; simpl.
  - rewrite app_nil_r. reflexivity.
  - rewrite IH, <- app_assoc. reflexivity.
Qed.

Lemma get_top_candidates_map (recipes_df : list Row)
    (user_ingredients : list string) (top_n : Z) :
  get_top_candidates recipes_df user_ingredients top_n
  = map candidate_of_row (head top_n recipes_df).
Proof.
  unfold get_top_candidates. cbv zeta.
  rewrite fold_left_append_map. reflexivity.
Qed.

Lemma head_firstn (n : Z) (df : list Row) :
  exists k, head n df = firstn k df /\ (k <= length df)%nat
            /\ ((0 <= n)%Z -> k = Nat.min (Z.to_nat n) (length df))
            /\ ((n < 0)%Z -> k = (length df - Z.to_nat (- n))%nat).
Proof.
  unfold head. destruct (Z.leb_spec 0 n) as [H|H].
  - exists (Nat.min (Z.to_nat n) (length df)).
    split; [|split; [lia|split; [reflexivity|lia]]].
    destruct (Nat.le_ge_cases (Z.to_nat n) (length df)) as [Hle|Hge].
    + rewrite Nat.min_l by exact Hle. reflexivity.
    + rewrite Nat.min_r by exact Hge.
      rewrite !firstn_all2 by lia. reflexivity.
  - exists (length df - Z.to_nat (- n))%nat.
    split; [reflexivity|]. split; [lia|]. split; [lia|reflexivity].
Qed.

(** X1: with a non-negative [top_n] the selector returns exactly
    [min(top_n, number of rows)] candidates, so never more than [top_n]. *)
Theorem get_top_candidates_count (recipes_df : list Row)
    (user_ingredients : list string) (top_n : Z) :
  (0 <= top_n)%Z ->
  length (get_top_candidates recipes_df user_ingredients top_n)
  = Nat.min (Z.to_nat top_n) (length recipes_df)
  /\ (Z.of_nat (length (get_top_candidates recipes_df user_ingredients top_n))
      <= top_n)%Z.
Proof.
  intros Hn. rewrite get_top_candidates_map, length_map.
  destruct (head_firstn top_n recipes_df) as (k & -> & Hk & Hpos & _).
  rewrite length_firstn, (Hpos Hn). lia.
Qed.

Lemma get_top_candidates_count_witness :
  (0 <= 2)%Z
  /\ length (get_top_candidates catalog [] 2) = Nat.min (Z.to_nat 2) (length catalog)
  /\ (Z.of_nat (length (get_top_candidates catalog [] 2)) <= 2)%Z.
Proof.
  split; [discriminate|].
  apply (get_top_candidates_count catalog [] 2%Z). discriminate.
Defined.

(** X2: the selector never reorders and never skips: whatever [top_n] is, the
    candidate at position [i] is the projection of the row at position [i]. *)
Theorem get_top_candidates_keeps_order (recipes_df : list Row)
    (user_ingredients : list string) (top_n : Z) (i : nat) (c : Candidate) :
  get_top_candidates recipes_df user_ingredients top_n !! i = Some c ->
  exists row, recipes_df !! i = Some row /\ c = candidate_of_row row.
Proof.
  rewrite get_top_candidates_map.
  destruct (head_firstn top_n recipes_df) as (k & -> & _).
  rewrite list_lookup_fmap. intros H.
  destruct (firstn k recipes_df !! i) as [row|] eqn:E; [|discriminate].
  injection H as <-. exists row. split; [|reflexivity].
  change firstn with (@take Row) in E.
  apply lookup_take_Some in E. tauto.
Qed.

Lemma get_top_candidates_keeps_order_witness :
  get_top_candidates catalog [] 2 !! 1%nat = Some (candidate_of_row risotto)
  /\ exists row, catalog !! 1%nat = Some row
                 /\ candidate_of_row risotto = candidate_of_row row.
Proof.
  split; [reflexivity|].
  apply (get_top_candidates_keeps_order catalog [] 2%Z 1%nat). reflexivity.
Defined.



(** ** More on the overlap *)

Lemma calculate_ingredient_overlap_unfold (recipe_ingredients : string)
    (user_ingredients : list string) :
  calculate_ingredient_overlap recipe_ingredients user_ingredients
  = Value (of_len (match_count recipe_ingredients user_ingredients)
           / of_len (length (recipe_pieces recipe_ingredients)) * 100).
Proof.
  unfold calculate_ingredient_overlap, match_count.
  fold (recipe_pieces recipe_ingredients).
  assert (Hpos : (0 < length (recipe_pieces recipe_ingredients))%nat).
  { unfold recipe_pieces. rewrite length_map. apply split_on_length. }
  destruct (Nat.eqb_spec (length (recipe_pieces recipe_ingredients)) 0)
    as [E|_]; [lia|].
  rewrite truediv_nonzero; [reflexivity|].
  intros H. pose proof (of_len_pos _ Hpos) as Hp. rewrite H in Hp.
  exact (Qlt_irrefl 0 Hp).
Qed.

Lemma recipe_pieces_pos (recipe_ingredients : string) :
  (0 < length (recipe_pieces recipe_ingredients))%nat.
Proof. unfold recipe_pieces. rewrite length_map. apply split_on_length. Qed.

Lemma ratio_times_100 (m n : nat) (k : Q) :
  (0 < n)%nat -> 0 <= k -> k <= 100 ->
  (of_len m / of_len n * 100 == k <-> of_len m * 100 == k * of_len n).
Proof.
  intros Hn _ _. pose proof (of_len_pos n Hn) as Hp.
  assert (Hnz : ~ of_len n == 0) by lra.
  split; intros H.
  - rewrite <- H. field. exact Hnz.
  - apply (Qmult_inj_r _ _ (of_len n) Hnz). rewrite <- H. field. exact Hnz.
Qed.

Lemma of_len_inj (m n : nat) : of_len m == of_len n <-> m = n.
Proof.
  unfold of_len. rewrite inject_Z_injective. lia.
Qed.

Lemma filter_length_all {A : Type} (p : A -> bool) (l : list A) :
  length (List.filter p l) = length l <-> List.Forall (fun a => p a = true) l.
Proof.
  induction l as [|a l IH]; simpl.
  - split; [constructor|reflexivity].
  - pose proof (List.filter_length_le p l) as Hle.
    destruct (p a) eqn:E; simpl.
    + rewrite List.Forall_cons_iff, <- IH. split; [intros [=]; auto|].
      intros [_ ->]. reflexivity.
    + split; [lia|]. intros H. inversion H; congruence.
Qed.

Lemma filter_length_none {A : Type} (p : A -> bool) (l : list A) :
  length (List.filter p l) = 0%nat <-> List.Forall (fun a => p a = false) l.
Proof.
  induction l as [|a l IH]; simpl.
  - split; [constructor|reflexivity].
  - destruct (p a) eqn:E; simpl.
    + split; [lia|]. intros H. inversion H; congruence.
    + rewrite List.Forall_cons_iff, <- IH. tauto.
Qed.

Lemma in_user_set (user_ingredients : list string) (x : string) :
  bool_decide (x ∈ (list_to_set user_ingredients : gset string)) = true
  <-> In x user_ingredients.
Proof.
  rewrite bool_decide_eq_true, elem_of_list_to_set, list_elem_of_In.
  reflexivity.
Qed.

(** X4: the overlap never raises, whatever the two arguments are, and the
    value lies between 0 and 100. *)
Theorem overlap_returns_percentage (recipe_ingredients : string)
    (user_ingredients : list string) :
  exists o,
    calculate_ingredient_overlap recipe_ingredients user_ingredients = Value o
    /\ 0 <= o /\ o <= 100.
Proof. apply calculate_ingredient_overlap_range. Qed.

(** X5: the overlap is 100 exactly when every piece of the recipe string,
    stripped and lowercased, is one of the user's ingredients, and 0 exactly
    when none is. *)
Theorem overlap_full_and_none (recipe_ingredients : string)
    (user_ingredients : list string) :
  exists o,
    calculate_ingredient_overlap recipe_ingredients user_ingredients = Value o
    /\ (o == 100 <->
        List.Forall (fun p => In p user_ingredients)
                    (recipe_pieces recipe_ingredients))
    /\ (o == 0 <->
        List.Forall (fun p => ~ In p user_ingredients)
                    (recipe_pieces recipe_ingredients)).
Proof.
  eexists. split; [apply calculate_ingredient_overlap_unfold|].
  pose proof (recipe_pieces_pos recipe_ingredients) as Hpos.
  split.
  - rewrite ratio_times_100 by (try exact Hpos; lra).
    rewrite (Qmult_comm 100), Qmult_inj_r by lra.
    rewrite of_len_inj. unfold match_count. rewrite filter_length_all.
    apply Forall_iff. intros p. apply in_user_set.
  - rewrite ratio_times_100 by (try exact Hpos; lra).
    rewrite Qmult_0_l.
    assert (E : of_len (match_count recipe_ingredients user_ingredients) * 100
                == 0 <->
                of_len (match_count recipe_ingredients user_ingredients)
                == of_len 0).
    { change (of_len 0) with 0. split; intros H; lra. }
    rewrite E, of_len_inj. unfold match_count. rewrite filter_length_none.
    apply Forall_iff. intros p. rewrite <- in_user_set.
    destruct (bool_decide _); split; congruence.
Qed.

(** Only the set of the user's ingredients matters: two lists with the
    same members, in any order and with any repetitions, give the same
    overlap. *)
Lemma overlap_depends_on_user_set (recipe_ingredients : string)
    (users1 users2 : list string) :
  (forall x, In x users1 <-> In x users2) ->
  calculate_ingredient_overlap recipe_ingredients users1
  = calculate_ingredient_overlap recipe_ingredients users2.
Proof.
  intros H.
  assert (E : (list_to_set users1 : gset string) = list_to_set users2).
  { apply set_eq. intros x. rewrite !elem_of_list_to_set, !list_elem_of_In.
    apply H. }
  unfold calculate_ingredient_overlap. rewrite E. reflexivity.
Qed.

Lemma filter_length_mono {A : Type} (p q : A -> bool) (l : list A) :
  (forall a, p a = true -> q a = true) ->
  (length (List.filter p l) <= length (List.filter q l))%nat.
Proof.
  intros H. induction l as [|a l IH]; simpl; [lia|].
  destruct (p a) eqn:E.
  - rewrite (H a E). simpl. lia.
  - destruct (q a); simpl; lia.
Qed.

Lemma overlap_of_mono (recipe_ingredients : string)
    (users1 users2 : list string) :
  (forall x, In x users1 -> In x users2) ->
  overlap_of recipe_ingredients users1 <= overlap_of recipe_ingredients users2.
Proof.
  intros H. unfold overlap_of.
  rewrite !calculate_ingredient_overlap_unfold.
  pose proof (of_len_pos _ (recipe_pieces_pos recipe_ingredients)) as Hp.
  apply Qmult_le_compat_r; [|lra].
  unfold Qdiv. apply Qmult_le_compat_r.
  - apply of_len_le. unfold match_count. apply filter_length_mono.
    intros p. rewrite !in_user_set. apply H.
  - apply Qinv_le_0_compat. lra.
Qed.

(** X6: more user ingredients never lower the overlap. *)
Theorem overlap_monotone_in_user_ingredients (recipe_ingredients : string)
    (users1 users2 : list string) :
  (forall x, In x users1 -> In x users2) ->
  exists o1 o2,
    calculate_ingredient_overlap recipe_ingredients users1 = Value o1
    /\ calculate_ingredient_overlap recipe_ingredients users2 = Value o2
    /\ o1 <= o2.
Proof.
  intros H. exists (overlap_of recipe_ingredients users1),
                   (overlap_of recipe_ingredients users2).
  split; [apply calculate_ingredient_overlap_value|].
  split; [apply calculate_ingredient_overlap_value|].
  apply overlap_of_mono, H.
Qed.

Lemma overlap_monotone_in_user_ingredients_witness :
  (forall x, In x ["tomato"] -> In x ["tomato"; "basil"])
  /\ exists o1 o2,
       calculate_ingredient_overlap "pasta, tomato, basil" ["tomato"]
       = Value o1
       /\ calculate_ingredient_overlap "pasta, tomato, basil"
                                       ["tomato"; "basil"] = Value o2
       /\ o1 <= o2.
Proof.
  assert (H : forall x, In x ["tomato"] -> In x ["tomato"; "basil"])
    by (intros x; simpl; tauto).
  split; [exact H|].
  exact (overlap_monotone_in_user_ingredients "pasta, tomato, basil"
           ["tomato"] ["tomato"; "basil"] H).
Defined.

Lemma split_on_comma_lower (s : string) :
  split_on is_comma (lower s) = map lower (split_on is_comma s).
Proof.
  induction s as [|c s IH]; simpl; [reflexivity|].
  rewrite is_comma_lower_char, IH.
  destruct (is_comma c); [reflexivity|].
  destruct (split_on is_comma s); reflexivity.
Qed.

Lemma recipe_pieces_lower (recipe_ingredients : string) :
  recipe_pieces (lower recipe_ingredients) = recipe_pieces recipe_ingredients.
Proof.
  unfold recipe_pieces. rewrite split_on_comma_lower, map_map.
  apply map_ext. intros p. rewrite strip_lower, lower_idem. reflexivity.
Qed.

Lemma recipe_pieces_normal (recipe_ingredients p : string) :
  In p (recipe_pieces recipe_ingredients) -> lower p = p /\ strip p = p.
Proof.
  unfold recipe_pieces. rewrite in_map_iff. intros (q & <- & _).
  split; [apply lower_idem|].
  rewrite <- strip_lower, strip_idem. reflexivity.
Qed.

(** X7: the letter case of the recipe's ingredient string does not matter. *)
Theorem overlap_ignores_recipe_case (recipe_ingredients : string)
    (user_ingredients : list string) :
  calculate_ingredient_overlap (lower recipe_ingredients) user_ingredients
  = calculate_ingredient_overlap recipe_ingredients user_ingredients.
Proof.
  rewrite !calculate_ingredient_overlap_unfold. unfold match_count.
  rewrite recipe_pieces_lower. reflexivity.
Qed.

(** X8: the user's list is compared as it is: a user token that is not
    lowercase, or that has leading or trailing whitespace, matches no piece
    and does not change the overlap. *)
Theorem overlap_user_token_must_be_normal (recipe_ingredients x : string)
    (user_ingredients : list string) :
  lower x <> x \/ strip x <> x ->
  calculate_ingredient_overlap recipe_ingredients (x :: user_ingredients)
  = calculate_ingredient_overlap recipe_ingredients user_ingredients.
Proof.
  intros Hx. rewrite !calculate_ingredient_overlap_unfold.
  assert (E : match_count recipe_ingredients (x :: user_ingredients)
              = match_count recipe_ingredients user_ingredients).
  { unfold match_count. f_equal. apply filter_ext_in. intros p Hp.
    destruct (recipe_pieces_normal _ _ Hp) as [Hl Hs].
    assert (Hne : p <> x) by (intros ->; tauto).
    apply eq_true_iff_eq. rewrite !in_user_set. simpl. intuition congruence. }
  rewrite E. reflexivity.
Qed.

Lemma overlap_user_token_must_be_normal_witness :
  (lower "Tomato" <> "Tomato" \/ strip "Tomato" <> "Tomato")
  /\ calculate_ingredient_overlap "Pasta, Tomato" ["Tomato"; "pasta"]
     = calculate_ingredient_overlap "Pasta, Tomato" ["pasta"].
Proof.
  assert (H : lower "Tomato" <> "Tomato" \/ strip "Tomato" <> "Tomato")
    by (left; discriminate).
  split; [exact H|].
  exact (overlap_user_token_must_be_normal "Pasta, Tomato" "Tomato"
           ["pasta"] H).
Defined.

(** ** More on the score *)

Lemma score_recipe_Qminmax (recipe : Row) (user_ingredients : list string)
    (cooking_time_limit : Z) :
  cooking_time_limit <> 0%Z ->
  exists s,
    score_recipe recipe user_ingredients cooking_time_limit = Value s
    /\ s == Qmin (Qmin (overlap_of (ingredients recipe) user_ingredients) 100
                  * (4 # 10)
                  + Qmax 0 (100 - of_int (cooking_time recipe)
                                  / of_int cooking_time_limit * 100)
                    * (3 # 10)
                  + 30)
                 100.
Proof.
  intros Hnz. eexists. split; [apply score_recipe_value, Hnz|].
  rewrite py_min_Qmin, py_min_Qmin, py_max_Qmax. reflexivity.
Qed.

Lemma overlap_of_range (recipe_ingredients : string)
    (user_ingredients : list string) :
  0 <= overlap_of recipe_ingredients user_ingredients
  /\ overlap_of recipe_ingredients user_ingredients <= 100.
Proof.
  unfold overlap_of.
  destruct (calculate_ingredient_overlap_range recipe_ingredients
              user_ingredients) as (o & -> & H). exact H.
Qed.

(** X9: whenever the scorer returns, that is for every non-zero time limit,
    negative ones and any cooking time included, the score lies between 30
    and 100. *)
Theorem score_recipe_between_30_and_100 (recipe : Row)
    (user_ingredients : list string) (cooking_time_limit : Z) :
  cooking_time_limit <> 0%Z ->
  exists s,
    score_recipe recipe user_ingredients cooking_time_limit = Value s
    /\ 30 <= s /\ s <= 100.
Proof.
  intros Hnz.
  destruct (score_recipe_Qminmax recipe user_ingredients _ Hnz)
    as (s & Hs & Heq).
  exists s. split; [exact Hs|]. rewrite Heq.
  destruct (overlap_of_range (ingredients recipe) user_ingredients)
    as [Ho0 Ho100].
  set (o := overlap_of _ _) in *.
  set (e := 100 - _).
  pose proof (Q.le_max_l 0 e) as Hx.
  assert (Hmin_o : Qmin o 100 == o) by (apply Q.min_l; exact Ho100).
  split; [|apply Q.le_min_r].
  apply Q.min_glb; [|lra]. rewrite Hmin_o. lra.
Qed.

Lemma score_recipe_between_30_and_100_witness :
  (-30)%Z <> 0%Z
  /\ exists s,
       score_recipe pasta ["tomato"] (-30) = Value s /\ 30 <= s /\ s <= 100.
Proof.
  split; [discriminate|].
  apply (score_recipe_between_30_and_100 pasta ["tomato"] (-30)%Z).
  discriminate.
Defined.

(** X10: with the recipe and a non-zero time limit fixed, more user
    ingredients never lower the score. *)
Theorem score_recipe_monotone_in_user_ingredients (recipe : Row)
    (users1 users2 : list string) (cooking_time_limit : Z) :
  cooking_time_limit <> 0%Z ->
  (forall x, In x users1 -> In x users2) ->
  exists s1 s2,
    score_recipe recipe users1 cooking_time_limit = Value s1
    /\ score_recipe recipe users2 cooking_time_limit = Value s2
    /\ s1 <= s2.
Proof.
  intros Hnz Hsub.
  destruct (score_recipe_Qminmax recipe users1 _ Hnz) as (s1 & Hs1 & E1).
  destruct (score_recipe_Qminmax recipe users2 _ Hnz) as (s2 & Hs2 & E2).
  exists s1, s2. split; [exact Hs1|]. split; [exact Hs2|].
  rewrite E1, E2.
  pose proof (overlap_of_mono (ingredients recipe) users1 users2 Hsub) as Hm.
  apply Q.min_le_compat_r.
  assert (Hmin : Qmin (overlap_of (ingredients recipe) users1) 100
                 <= Qmin (overlap_of (ingredients recipe) users2) 100)
    by (apply Q.min_le_compat_r; exact Hm).
  lra.
Qed.

Lemma score_recipe_monotone_in_user_ingredients_witness :
  30%Z <> 0%Z
  /\ (forall x, In x ["tomato"] -> In x ["tomato"; "basil"])
  /\ exists s1 s2,
       score_recipe pasta ["tomato"] 30 = Value s1
       /\ score_recipe pasta ["tomato"; "basil"] 30 = Value s2
       /\ s1 <= s2.
Proof.
  assert (H : forall x, In x ["tomato"] -> In x ["tomato"; "basil"])
    by (intros x; simpl; tauto).
  split; [discriminate|]. split; [exact H|].
  apply (score_recipe_monotone_in_user_ingredients pasta ["tomato"]
           ["tomato"; "basil"] 30%Z); [discriminate|exact H].
Defined.

(** X11: a recipe that uses up the whole time budget or more gets no time
    credit: its score is 30 plus four tenths of the overlap. *)
Theorem score_recipe_over_budget (recipe : Row)
    (user_ingredients : list string) (cooking_time_limit : Z) :
  (0 < cooking_time_limit)%Z ->
  (cooking_time_limit <= cooking_time recipe)%Z ->
  exists o s,
    calculate_ingredient_overlap (ingredients recipe) user_ingredients
    = Value o
    /\ score_recipe recipe user_ingredients cooking_time_limit = Value s
    /\ s == 30 + o * (4 # 10).
Proof.
  intros Hl Hge.
  destruct (score_recipe_Qminmax recipe user_ingredients cooking_time_limit)
    as (s & Hs & Heq); [lia|].
  exists (overlap_of (ingredients recipe) user_ingredients), s.
  split; [apply calculate_ingredient_overlap_value|]. split; [exact Hs|].
  rewrite Heq.
  destruct (overlap_of_range (ingredients recipe) user_ingredients)
    as [Ho0 Ho100].
  set (o := overlap_of _ _) in *.
  pose proof (time_ratio_ge_1 _ _ Hl Hge) as Hr.
  set (ratio := of_int _ / of_int _) in *.
  assert (Hmax : Qmax 0 (100 - ratio * 100) == 0) by (apply Q.max_l; lra).
  assert (Hmin_o : Qmin o 100 == o) by (apply Q.min_l; exact Ho100).
  rewrite Hmax, Hmin_o. rewrite Q.min_l by lra. lra.
Qed.

Lemma score_recipe_over_budget_witness :
  (0 < 30)%Z /\ (30 <= cooking_time risotto)%Z
  /\ exists o s,
       calculate_ingredient_overlap (ingredients risotto) ["rice"; "onion"]
       = Value o
       /\ score_recipe risotto ["rice"; "onion"] 30 = Value s
       /\ s == 30 + o * (4 # 10).
Proof.
  split; [reflexivity|]. split; [discriminate|].
  apply (score_recipe_over_budget risotto ["rice"; "onion"] 30%Z);
    [reflexivity|discriminate].
Defined.

(** X12: a negative time limit is not penalised but rewarded: with a
    non-negative cooking time the time term is at least its full 30 points,
    so the score is at least 60. *)
Theorem score_recipe_negative_limit_at_least_60 (recipe : Row)
    (user_ingredients : list string) (cooking_time_limit : Z) :
  (cooking_time_limit < 0)%Z -> (0 <= cooking_time recipe)%Z ->
  exists s,
    score_recipe recipe user_ingredients cooking_time_limit = Value s
    /\ 60 <= s.
Proof.
  intros Hl Hc.
  destruct (score_recipe_Qminmax recipe user_ingredients cooking_time_limit)
    as (s & Hs & Heq); [lia|].
  exists s. split; [exact Hs|]. rewrite Heq.
  destruct (overlap_of_range (ingredients recipe) user_ingredients)
    as [Ho0 Ho100].
  set (o := overlap_of _ _) in *.
  assert (Hr : of_int (cooking_time recipe) / of_int cooking_time_limit <= 0).
  { assert (H1 : 0 <= of_int (cooking_time recipe)).
    { unfold of_int. change 0 with (inject_Z 0). rewrite <- Zle_Qle. exact Hc. }
    assert (H2 : of_int cooking_time_limit < 0).
    { unfold of_int. change 0 with (inject_Z 0). rewrite <- Zlt_Qlt. exact Hl. }
    assert (H3 : of_int cooking_time_limit
                 * (of_int (cooking_time recipe) / of_int cooking_time_limit)
                 == of_int (cooking_time recipe))
      by (apply Qmult_div_r; lra).
    set (r := of_int (cooking_time recipe) / of_int cooking_time_limit) in *.
    destruct (Qlt_le_dec 0 r) as [Hpos|Hle]; [|exact Hle].
    exfalso.
    assert (H4 : 0 < (- of_int cooking_time_limit) * r)
      by (apply Qmult_lt_0_compat; lra).
    lra. }
  set (ratio := of_int _ / of_int _) in *.
  pose proof (Q.le_max_r 0 (100 - ratio * 100)) as Hx.
  assert (Hmin_o : Qmin o 100 == o) by (apply Q.min_l; exact Ho100).
  apply Q.min_glb; [|lra]. rewrite Hmin_o. lra.
Qed.

Lemma score_recipe_negative_limit_at_least_60_witness :
  (-30 < 0)%Z /\ (0 <= cooking_time pasta)%Z
  /\ exists s, score_recipe pasta [] (-30) = Value s /\ 60 <= s.
Proof.
  split; [reflexivity|]. split; [discriminate|].
  apply (score_recipe_negative_limit_at_least_60 pasta [] (-30)%Z);
    [reflexivity|discriminate].
Defined.

(** ** More on the filter *)

Lemma filter_recipes_In (sort_values : list Row -> list Row)
    (recipes_df : list Row) (user_ingredients : list string)
    (max_cooking_time : Z) (meal_type' cuisine' : string) (min_overlap : Q) :
  (forall l, Permutation (sort_values l) l) ->
  exists out,
    filter_recipes sort_values recipes_df user_ingredients max_cooking_time
                   meal_type' cuisine' min_overlap = Value out
    /\ Permutation out
         (List.filter (overlap_at_least (min_overlap * 100))
            (map (annotate user_ingredients)
               (narrowed recipes_df max_cooking_time meal_type' cuisine')))
    /\ forall r',
         In r' out <->
         exists r,
           In r recipes_df
           /\ r' = annotate user_ingredients r
           /\ (cooking_time r <= max_cooking_time)%Z
           /\ lower (meal_type r) = lower meal_type'
           /\ lower (cuisine r) = lower cuisine'
           /\ min_overlap * 100 <= overlap_of (ingredients r) user_ingredients.
Proof.
  intros Hperm. eexists. split; [apply filter_recipes_value|].
  split; [apply Hperm|].
  intros r'. split.
  - intros Hin. apply (Permutation_in _ (Hperm _)) in Hin.
    apply filter_In in Hin. destruct Hin as [Hin Hov].
    apply in_map_iff in Hin. destruct Hin as (r & <- & Hin).
    apply narrowed_In in Hin. destruct Hin as (Hin & Ht & Hm & Hc).
    exists r. repeat (split; [assumption || reflexivity|]).
    unfold overlap_at_least in Hov. simpl in Hov.
    apply Qle_bool_iff, Hov.
  - intros (r & Hin & -> & Ht & Hm & Hc & Hov).
    apply (Permutation_in _ (Permutation_sym (Hperm _))).
    apply filter_In. split.
    + apply in_map, narrowed_In. auto.
    + unfold overlap_at_least. simpl. apply Qle_bool_iff, Hov.
Qed.

(** X13: the filter loses nothing: its output holds exactly the catalog rows
    that meet the time, meal-type and cuisine tests and whose overlap reaches
    the threshold, each with its overlap written into the row; it has at most
    as many rows as the catalog. *)
Theorem filter_recipes_exact (sort_values : list Row -> list Row)
    (recipes_df : list Row) (user_ingredients : list string)
    (max_cooking_time : Z) (meal_type' cuisine' : string) (min_overlap : Q) :
  (forall l, Permutation (sort_values l) l) ->
  exists out,
    filter_recipes sort_values recipes_df user_ingredients max_cooking_time
                   meal_type' cuisine' min_overlap = Value out
    /\ (length out <= length recipes_df)%nat
    /\ forall r',
         In r' out <->
         exists r o,
           In r recipes_df
           /\ calculate_ingredient_overlap (ingredients r) user_ingredients
              = Value o
           /\ r' = set_ingredient_overlap r o
           /\ (cooking_time r <= max_cooking_time)%Z
           /\ lower (meal_type r) = lower meal_type'
           /\ lower (cuisine r) = lower cuisine'
           /\ min_overlap * 100 <= o.
Proof.
  intros Hperm.
  destruct (filter_recipes_In sort_values recipes_df user_ingredients
              max_cooking_time meal_type' cuisine' min_overlap Hperm)
    as (out & Hout & Hp & Hin).
  exists out. split; [exact Hout|]. split.
  - rewrite (Permutation_length Hp).
    etransitivity; [apply List.filter_length_le|]. rewrite length_map.
    unfold narrowed.
    etransitivity; [apply List.filter_length_le|].
    etransitivity; [apply List.filter_length_le|].
    apply List.filter_length_le.
  - intros r'. rewrite Hin. split.
    + intros (r & H1 & H2 & H3 & H4 & H5 & H6).
      exists r, (overlap_of (ingredients r) user_ingredients).
      split; [exact H1|].
      split; [apply calculate_ingredient_overlap_value|].
      unfold annotate in H2. tauto.
    + intros (r & o & H1 & Ho & H2 & H3 & H4 & H5 & H6).
      rewrite calculate_ingredient_overlap_value in Ho. injection Ho as <-.
      exists r. unfold annotate. tauto.
Qed.

Lemma filter_recipes_exact_witness :
  (forall l, Permutation (stable_sort_desc l) l)
  /\ exists out,
       filter_recipes stable_sort_desc catalog ["pasta"; "tomato"; "basil"]
                      30 "Dinner" "Italian" (6 # 10) = Value out
       /\ (length out <= length catalog)%nat
       /\ forall r',
            In r' out <->
            exists r o,
              In r catalog
              /\ calculate_ingredient_overlap (ingredients r)
                   ["pasta"; "tomato"; "basil"] = Value o
              /\ r' = set_ingredient_overlap r o
              /\ (cooking_time r <= 30)%Z
              /\ lower (meal_type r) = lower "Dinner"
              /\ lower (cuisine r) = lower "Italian"
              /\ (6 # 10) * 100 <= o.
Proof.
  split; [exact stable_sort_desc_perm|].
  exact (filter_recipes_exact stable_sort_desc catalog
           ["pasta"; "tomato"; "basil"] 30%Z "Dinner" "Italian" (6 # 10)
           stable_sort_desc_perm).
Defined.

(** The letter case of the queried meal type and cuisine does not
    matter. *)
Lemma filter_recipes_ignores_query_case (sort_values : list Row -> list Row)
    (recipes_df : list Row) (user_ingredients : list string)
    (max_cooking_time : Z) (meal_type' cuisine' : string) (min_overlap : Q) :
  filter_recipes sort_values recipes_df user_ingredients max_cooking_time
                 (lower meal_type') (lower cuisine') min_overlap
  = filter_recipes sort_values recipes_df user_ingredients max_cooking_time
                   meal_type' cuisine' min_overlap.
Proof.
  rewrite !filter_recipes_value. unfold narrowed. rewrite !lower_idem.
  reflexivity.
Qed.

(** X14: a larger time budget or a lower overlap threshold only adds rows:
    every row returned under the stricter query is returned under the laxer
    one. *)
Theorem filter_recipes_monotone (sort_values : list Row -> list Row)
    (recipes_df : list Row) (user_ingredients : list string)
    (time1 time2 : Z) (meal_type' cuisine' : string)
    (min_overlap1 min_overlap2 : Q) :
  (forall l, Permutation (sort_values l) l) ->
  (time1 <= time2)%Z -> min_overlap2 <= min_overlap1 ->
  exists out1 out2,
    filter_recipes sort_values recipes_df user_ingredients time1
                   meal_type' cuisine' min_overlap1 = Value out1
    /\ filter_recipes sort_values recipes_df user_ingredients time2
                      meal_type' cuisine' min_overlap2 = Value out2
    /\ forall r, In r out1 -> In r out2.
Proof.
  intros Hperm Ht Hm.
  destruct (filter_recipes_In sort_values recipes_df user_ingredients
              time1 meal_type' cuisine' min_overlap1 Hperm)
    as (out1 & Hout1 & _ & Hin1).
  destruct (filter_recipes_In sort_values recipes_df user_ingredients
              time2 meal_type' cuisine' min_overlap2 Hperm)
    as (out2 & Hout2 & _ & Hin2).
  exists out1, out2. split; [exact Hout1|]. split; [exact Hout2|].
  intros r'. rewrite Hin1, Hin2.
  intros (r & H1 & H2 & H3 & H4 & H5 & H6).
  exists r. repeat (split; [assumption || lia|]). lra.
Qed.

Lemma filter_recipes_monotone_witness :
  (forall l, Permutation (stable_sort_desc l) l)
  /\ (30 <= 45)%Z /\ (5 # 10) <= (6 # 10)
  /\ exists out1 out2,
       filter_recipes stable_sort_desc catalog ["rice"; "onion"; "tomato"] 30
                      "dinner" "italian" (6 # 10) = Value out1
       /\ filter_recipes stable_sort_desc catalog ["rice"; "onion"; "tomato"]
                         45 "dinner" "italian" (5 # 10) = Value out2
       /\ forall r, In r out1 -> In r out2.
Proof.
  split; [exact stable_sort_desc_perm|].
  split; [discriminate|]. split; [discriminate|].
  apply (filter_recipes_monotone stable_sort_desc catalog
           ["rice"; "onion"; "tomato"] 30%Z 45%Z "dinner" "italian"
           (6 # 10) (5 # 10) stable_sort_desc_perm); discriminate.
Defined.

Lemma filter_map_commute {A : Type} (p : A -> bool) (g : A -> A)
    (l : list A) :
  (forall a, p (g a) = p a) ->
  List.filter p (map g l) = map g (List.filter p l).
Proof.
  intros H. induction l as [|a l IH]; simpl; [reflexivity|].
  rewrite H. destruct (p a); simpl; rewrite IH; reflexivity.
Qed.

Lemma annotate_narrowed_drop_overlap (recipes_df : list Row)
    (user_ingredients : list string) (max_cooking_time : Z)
    (meal_type' cuisine' : string) :
  map (annotate user_ingredients)
      (narrowed (map drop_overlap recipes_df) max_cooking_time meal_type'
                cuisine')
  = map (annotate user_ingredients)
        (narrowed recipes_df max_cooking_time meal_type' cuisine').
Proof.
  unfold narrowed.
  rewrite !filter_map_commute by reflexivity.
  rewrite map_map. reflexivity.
Qed.

(** X15: an overlap column that the input table already has is overwritten,
    never read: two tables that agree on all other columns give the same
    output. *)
Theorem filter_recipes_ignores_stored_overlap
    (sort_values : list Row -> list Row) (df1 df2 : list Row)
    (user_ingredients : list string) (max_cooking_time : Z)
    (meal_type' cuisine' : string) (min_overlap : Q) :
  map drop_overlap df1 = map drop_overlap df2 ->
  filter_recipes sort_values df1 user_ingredients max_cooking_time
                 meal_type' cuisine' min_overlap
  = filter_recipes sort_values df2 user_ingredients max_cooking_time
                   meal_type' cuisine' min_overlap.
Proof.
  intros H. rewrite !filter_recipes_value.
  rewrite <- (annotate_narrowed_drop_overlap df1),
          <- (annotate_narrowed_drop_overlap df2), H.
  reflexivity.
Qed.

Lemma filter_recipes_ignores_stored_overlap_witness :
  map drop_overlap [set_ingredient_overlap pasta 7; dosa]
  = map drop_overlap [pasta; set_ingredient_overlap dosa 99]
  /\ filter_recipes stable_sort_desc [set_ingredient_overlap pasta 7; dosa]
                    ["pasta"; "tomato"] 30 "dinner" "italian" (6 # 10)
     = filter_recipes stable_sort_desc [pasta; set_ingredient_overlap dosa 99]
                      ["pasta"; "tomato"] 30 "dinner" "italian" (6 # 10).
Proof.
  split; [reflexivity|].
  apply (filter_recipes_ignores_stored_overlap stable_sort_desc
           [set_ingredient_overlap pasta 7; dosa]
           [pasta; set_ingredient_overlap dosa 99]).
  reflexivity.
Defined.

(** ** Filter and selector together *)

Lemma filter_recipes_output (sort_values : list Row -> list Row)
    (recipes_df : list Row) (user_ingredients : list string)
    (max_cooking_time : Z) (meal_type' cuisine' : string) (min_overlap : Q) :
  (forall l, Permutation (sort_values l) l) ->
  (forall l, StronglySorted overlap_desc (sort_values l)) ->
  exists out,
    filter_recipes sort_values recipes_df user_ingredients max_cooking_time
                   meal_type' cuisine' min_overlap = Value out
    /\ List.Forall (accepted_row user_ingredients max_cooking_time meal_type'
                                 cuisine' min_overlap) out
    /\ StronglySorted overlap_ge out.
Proof.
  intros Hperm Hsorted. eexists. split; [apply filter_recipes_value|].
  set (kept := List.filter _ _).
  assert (Hacc : List.Forall
                   (accepted_row user_ingredients max_cooking_time meal_type'
                                 cuisine' min_overlap) (sort_values kept)).
  { apply List.Forall_forall. intros r Hr.
    apply (Permutation_in _ (Hperm kept)) in Hr.
    apply (kept_rows_accepted _ _ _ _ _ recipes_df), Hr. }
  split; [exact Hacc|].
  apply StronglySorted_overlap_ge; [apply Hsorted|].
  eapply List.Forall_impl; [|exact Hacc].
  intros r (_ & _ & _ & o & Ho & _). eauto.
Qed.

(** X16: the top candidates of a filtered catalog, for a non-negative
    [top_n]: there are at most [top_n]; each is within the time limit, has the
    queried meal type and cuisine up to letter case and an overlap of at least
    the threshold; they come in descending order of overlap; and no row left
    out has a larger overlap than a selected one. *)
Theorem top_candidates_of_filtered_catalog
    (sort_values : list Row -> list Row) (recipes_df : list Row)
    (user_ingredients : list string) (max_cooking_time : Z)
    (meal_type' cuisine' : string) (min_overlap : Q) (top_n : Z) :
  (forall l, Permutation (sort_values l) l) ->
  (forall l, StronglySorted overlap_desc (sort_values l)) ->
  (0 <= top_n)%Z ->
  exists out candidates,
    filter_recipes sort_values recipes_df user_ingredients max_cooking_time
                   meal_type' cuisine' min_overlap = Value out
    /\ get_top_candidates out user_ingredients top_n = candidates
    /\ (Z.of_nat (length candidates) <= top_n)%Z
    /\ List.Forall (accepted_candidate max_cooking_time meal_type' cuisine'
                                       min_overlap) candidates
    /\ StronglySorted
         (fun a b => cand_ingredient_overlap b <= cand_ingredient_overlap a)
         candidates
    /\ forall c r,
         In c candidates -> In r (skipn (length candidates) out) ->
         get_overlap_or_0 r <= cand_ingredient_overlap c.
Proof.
  intros Hperm Hsorted Hn.
  destruct (filter_recipes_output sort_values recipes_df user_ingredients
              max_cooking_time meal_type' cuisine' min_overlap Hperm Hsorted)
    as (out & Hout & Hacc & Hss).
  exists out. eexists. split; [exact Hout|]. split; [reflexivity|].
  rewrite get_top_candidates_map.
  destruct (head_firstn top_n out) as (k & -> & Hk & Hpos & _).
  specialize (Hpos Hn). rewrite length_map, length_firstn.
  replace (Nat.min k (length out)) with k by lia.
  rewrite <- (firstn_skipn k out) in Hss, Hacc.
  apply StronglySorted_app in Hss. destruct Hss as (Hcross & Hs1 & _).
  apply List.Forall_app in Hacc. destruct Hacc as [Hacc1 _].
  split; [lia|]. split; [|split].
  - apply List.Forall_forall. intros c Hc.
    apply in_map_iff in Hc. destruct Hc as (r & <- & Hr).
    rewrite List.Forall_forall in Hacc1.
    destruct (Hacc1 r Hr) as (Ht & Hm & Hc & o & Ho & _ & Hle).
    unfold accepted_candidate, candidate_of_row, get_overlap_or_0. simpl.
    rewrite Ho. auto.
  - clear -Hs1. induction Hs1 as [|a l Hl IH Ha]; simpl; constructor.
    + exact IH.
    + rewrite List.Forall_forall in Ha |- *. intros c Hc.
      apply in_map_iff in Hc. destruct Hc as (b & <- & Hb).
      destruct (Ha b Hb) as (x & y & Hx & Hy & Hle).
      unfold candidate_of_row, get_overlap_or_0. simpl.
      rewrite Hx, Hy. exact Hle.
  - intros c r Hc Hr. apply in_map_iff in Hc. destruct Hc as (r1 & <- & Hr1).
    destruct (Hcross r1 r) as (x & y & Hx & Hy & Hle);
      [apply list_elem_of_In; exact Hr1|apply list_elem_of_In; exact Hr|].
    unfold candidate_of_row, get_overlap_or_0. simpl.
    rewrite Hx, Hy. exact Hle.
Qed.

Lemma top_candidates_of_filtered_catalog_witness :
  (forall l, Permutation (stable_sort_desc l) l)
  /\ (forall l, StronglySorted overlap_desc (stable_sort_desc l))
  /\ (0 <= 1)%Z
  /\ exists out candidates,
       filter_recipes stable_sort_desc catalog
                      ["pasta"; "tomato"; "basil"; "bread"] 30 "Dinner"
                      "Italian" (6 # 10) = Value out
       /\ get_top_candidates out ["pasta"; "tomato"; "basil"; "bread"] 1
          = candidates
       /\ (Z.of_nat (length candidates) <= 1)%Z
       /\ List.Forall (accepted_candidate 30 "Dinner" "Italian" (6 # 10))
                      candidates
       /\ StronglySorted
            (fun a b => cand_ingredient_overlap b <= cand_ingredient_overlap a)
            candidates
       /\ forall c r,
            In c candidates -> In r (skipn (length candidates) out) ->
            get_overlap_or_0 r <= cand_ingredient_overlap c.
Proof.
  split; [exact stable_sort_desc_perm|].
  split; [exact stable_sort_desc_sorted|].
  split; [discriminate|].
  apply (top_candidates_of_filtered_catalog stable_sort_desc catalog
           ["pasta"; "tomato"; "basil"; "bread"] 30%Z "Dinner" "Italian"
           (6 # 10) 1%Z stable_sort_desc_perm stable_sort_desc_sorted).
  discriminate.
Defined.

(** ** More on normalisation *)

Lemma clean_lower (s : string) : clean (lower s) = clean s.
Proof. unfold clean. rewrite lower_idem. reflexivity. Qed.

Lemma clean_strip (s : string) : clean (strip s) = clean s.
Proof. unfold clean. rewrite <- strip_lower, strip_idem. reflexivity. Qed.

(** X17: letter case and surrounding whitespace of an ingredient do not
    matter to its normal form. *)
Theorem normalize_ingredient_ignores_case_and_padding (s : string) :
  normalize_ingredient (lower s) = normalize_ingredient s
  /\ normalize_ingredient (strip s) = normalize_ingredient s.
Proof.
  unfold normalize_ingredient. rewrite clean_lower, clean_strip. auto.
Qed.

Lemma all_chars_impl (p q : ascii -> bool) (s : string) :
  (forall c, p c = true -> q c = true) ->
  all_chars p s = true -> all_chars q s = true.
Proof.
  intros H. induction s as [|c s IH]; simpl; [reflexivity|].
  rewrite !andb_true_iff. intros [Hc Hs]. auto.
Qed.

Lemma all_chars_lower (p : ascii -> bool) (s : string) :
  all_chars (fun c => p (lower_char c)) s = all_chars p (lower s).
Proof.
  induction s as [|c s IH]; simpl; [reflexivity|]. rewrite IH. reflexivity.
Qed.

Lemma all_chars_lstrip (p : ascii -> bool) (s : string) :
  all_chars p s = true -> all_chars p (lstrip s) = true.
Proof.
  induction s as [|c s IH]; simpl; [reflexivity|].
  rewrite andb_true_iff. intros [Hc Hs].
  destruct (isspace c); [auto|]. simpl. rewrite Hc, Hs. reflexivity.
Qed.

Lemma all_chars_rstrip (p : ascii -> bool) (s : string) :
  all_chars p s = true -> all_chars p (rstrip s) = true.
Proof.
  induction s as [|c s IH]; simpl; [reflexivity|].
  rewrite andb_true_iff. intros [Hc Hs]. specialize (IH Hs).
  destruct (rstrip s) as [|d r].
  - destruct (isspace c); simpl; [reflexivity|]. rewrite Hc. reflexivity.
  - simpl in *. rewrite Hc, IH. reflexivity.
Qed.

Lemma all_chars_strip (p : ascii -> bool) (s : string) :
  all_chars p s = true -> all_chars p (strip s) = true.
Proof. intros H. apply all_chars_lstrip, all_chars_rstrip, H. Qed.

Lemma all_chars_sub_ws_runs (p : ascii -> bool) (in_run : bool) (s : string) :
  p " "%char = true -> all_chars p s = true ->
  all_chars p (sub_ws_runs in_run s) = true.
Proof.
  intros Hsp. revert in_run.
  induction s as [|c s IH]; intros in_run; simpl; [reflexivity|].
  rewrite andb_true_iff. intros [Hc Hs].
  destruct (isspace c).
  - destruct in_run; [auto|]. simpl. rewrite Hsp. simpl. auto.
  - simpl. rewrite Hc. simpl. auto.
Qed.

Lemma sub_special_fixed (s : string) :
  all_chars keep_char s = true -> sub_special s = s.
Proof.
  induction s as [|c s IH]; simpl; [reflexivity|].
  rewrite andb_true_iff. intros [-> Hs]. rewrite IH by exact Hs. reflexivity.
Qed.

Lemma sub_special_all_removed (s : string) :
  all_chars (fun c => negb (keep_char c)) s = true -> sub_special s = "".
Proof.
  induction s as [|c s IH]; simpl; [reflexivity|].
  rewrite andb_true_iff, negb_true_iff. intros [-> Hs]. auto.
Qed.

Lemma rstrip_all_space (s : string) :
  all_chars isspace s = true -> rstrip s = "".
Proof.
  induction s as [|c s IH]; simpl; [reflexivity|].
  rewrite andb_true_iff. intros [-> Hs]. rewrite IH by exact Hs. reflexivity.
Qed.

Lemma split_on_all_chars (p sep : ascii -> bool) (s : string) :
  all_chars (fun c => p c || sep c) s = true ->
  List.Forall (fun w => all_chars p w = true) (split_on sep s).
Proof.
  induction s as [|c s IH]; simpl.
  - intros _. repeat constructor.
  - rewrite andb_true_iff. intros [Hc Hs]. specialize (IH Hs).
    destruct (sep c) eqn:Hsep.
    + constructor; [reflexivity|exact IH].
    + rewrite orb_false_r in Hc.
      destruct (split_on sep s) as [|h t].
      * repeat constructor. simpl. rewrite Hc. reflexivity.
      * inversion IH as [|? ? Hh Ht]; subst.
        constructor; [|exact Ht]. simpl. rewrite Hc, Hh. reflexivity.
Qed.

(** X18: a text of separators and whitespace only, the empty text included,
    normalises to the empty list. *)
Theorem normalize_ingredients_blank_text (text : string) :
  all_chars (fun c => isspace c || is_comma_or_newline c) text = true ->
  normalize_ingredients text = [].
Proof.
  intros H. rewrite normalize_ingredients_unfold.
  assert (E : normalized_fragments text = []).
  { unfold normalized_fragments.
    pose proof (split_on_all_chars isspace is_comma_or_newline text H) as Hf.
    induction Hf as [|w l Hw _ IH]; simpl; [reflexivity|].
    unfold strip at 1. rewrite (rstrip_all_space w Hw). simpl. exact IH. }
  rewrite E. reflexivity.
Qed.

Lemma normalize_ingredients_blank_text_witness :
  all_chars (fun c => isspace c || is_comma_or_newline c) " , ,  " = true
  /\ normalize_ingredients " , ,  " = [].
Proof.
  split; [reflexivity|].
  apply (normalize_ingredients_blank_text " , ,  "). reflexivity.
Defined.

Lemma resolve_empty : resolve_alias INGREDIENT_ALIASES "" = "".
Proof. reflexivity. Qed.

Lemma sub_ws_runs_no_space (in_run : bool) (s : string) :
  all_chars (fun c => negb (isspace c)) s = true -> sub_ws_runs in_run s = s.
Proof.
  revert in_run. induction s as [|c s IH]; intros in_run; simpl; [reflexivity|].
  rewrite andb_true_iff, negb_true_iff. intros [-> Hs].
  rewrite IH by exact Hs. reflexivity.
Qed.

(** X19: a fragment without any letter, digit or whitespace (punctuation
    only) normalises to the empty string, and the empty string is never part
    of the output list. *)
Theorem punctuation_only_fragment_is_dropped (s : string) :
  all_chars (fun c => negb (keep_char (lower_char c))) s = true ->
  normalize_ingredient s = ""
  /\ forall text, ~ In (normalize_ingredient s) (normalize_ingredients text).
Proof.
  intros H.
  assert (E : normalize_ingredient s = "").
  { unfold normalize_ingredient, clean.
    rewrite (all_chars_lower (fun c => negb (keep_char c))) in H.
    apply all_chars_strip in H.
    assert (Hns : all_chars (fun c => negb (isspace c)) (strip (lower s))
                  = true).
    { eapply all_chars_impl; [|exact H]. intros c. unfold keep_char.
      rewrite !negb_true_iff, !orb_false_iff. tauto. }
    rewrite (sub_ws_runs_no_space _ _ Hns), (sub_special_all_removed _ H).
    exact resolve_empty. }
  split; [exact E|]. intros text Hin. rewrite E in Hin.
  destruct (normalize_ingredients_dedup_props text) as (_ & Hel & _).
  apply Hel in Hin. tauto.
Qed.

Lemma punctuation_only_fragment_is_dropped_witness :
  all_chars (fun c => negb (keep_char (lower_char c))) "!?-&" = true
  /\ normalize_ingredient "!?-&" = ""
  /\ forall text, ~ In (normalize_ingredient "!?-&") (normalize_ingredients text).
Proof.
  split; [reflexivity|].
  apply (punctuation_only_fragment_is_dropped "!?-&"). reflexivity.
Defined.

Lemma canonical_names_not_aliases :
  List.Forall
    (fun e => List.Forall (fun e' => e.1 ∉ e'.2) INGREDIENT_ALIASES)
    INGREDIENT_ALIASES.
Proof. refine (bool_decide_unpack _ _). vm_compute. exact I. Qed.

(** X20: a registered alias never survives: no token of the output occurs in
    an alias list of the table. *)
Theorem normalize_output_has_no_alias (text tok canonical : string)
    (aliases : list string) :
  In tok (normalize_ingredients text) ->
  In (canonical, aliases) INGREDIENT_ALIASES ->
  ~ In tok aliases.
Proof.
  intros Hin He Hal.
  destruct (normalize_ingredients_dedup_props text) as (_ & Hel & _).
  apply Hel in Hin. destruct Hin as [Hin _].
  unfold normalized_fragments in Hin. apply in_map_iff in Hin.
  destruct Hin as (s & <- & _).
  rewrite normalize_ingredient_first_match in Hal.
  destruct (find _ _) as [e|] eqn:Hf.
  - apply find_some in Hf. destruct Hf as [Hfe _].
    pose proof canonical_names_not_aliases as H.
    rewrite List.Forall_forall in H. specialize (H e Hfe).
    rewrite List.Forall_forall in H. specialize (H _ He). simpl in H.
    apply H, list_elem_of_In, Hal.
  - pose proof (find_none _ _ Hf _ He) as Hm.
    apply not_true_iff_false in Hm. apply Hm, entry_matches_In.
    unfold entry_names. simpl. auto.
Qed.

Lemma normalize_output_has_no_alias_witness :
  In "tomato" (normalize_ingredients "Tamatar, pyaz")
  /\ In ("tomato", ["tomatoes"; "tomatoe"; "tamatar"]) INGREDIENT_ALIASES
  /\ ~ In "tomato" ["tomatoes"; "tomatoe"; "tamatar"].
Proof.
  assert (H1 : In "tomato" (normalize_ingredients "Tamatar, pyaz"))
    by (vm_compute; auto).
  assert (H2 : In ("tomato", ["tomatoes"; "tomatoe"; "tamatar"])
                  INGREDIENT_ALIASES) by (simpl; auto).
  split; [exact H1|]. split; [exact H2|].
  exact (normalize_output_has_no_alias "Tamatar, pyaz" "tomato" "tomato"
           ["tomatoes"; "tomatoe"; "tamatar"] H1 H2).
Defined.

Lemma plain_char_kept (c : ascii) :
  plain_char c = true -> keep_char (lower_char c) = true.
Proof. destruct c as [[] [] [] [] [] [] [] []]; vm_compute; congruence. Qed.

Lemma not_space_not_blank (c : ascii) :
  isspace c = false -> Ascii.eqb c " " = false.
Proof.
  intros H. destruct (Ascii.eqb_spec c " ") as [->|_]; [discriminate|].
  reflexivity.
Qed.

Lemma no_double_space_cons (a b : ascii) (s : string) :
  no_double_space (String a (String b s))
  = negb (Ascii.eqb a " " && Ascii.eqb b " ") && no_double_space (String b s).
Proof. reflexivity. Qed.

Lemma sub_ws_runs_no_double (in_run : bool) (s : string) :
  no_double_space (sub_ws_runs in_run s) = true
  /\ (in_run = true ->
      match sub_ws_runs in_run s with
      | String c _ => Ascii.eqb c " " = false
      | EmptyString => True
      end).
Proof.
  revert in_run. induction s as [|c s IH]; intros in_run.
  - simpl. auto.
  - cbn [sub_ws_runs]. destruct (isspace c) eqn:Hc.
    + destruct in_run; [apply IH|].
      split; [|discriminate].
      destruct (IH true) as [Hnd Hhd]. specialize (Hhd eq_refl).
      destruct (sub_ws_runs true s) as [|d r]; [reflexivity|].
      rewrite no_double_space_cons, Hhd, andb_false_r. exact Hnd.
    + pose proof (not_space_not_blank c Hc) as Hb.
      split; [|intros _; exact Hb].
      destruct (IH false) as [Hnd _].
      destruct (sub_ws_runs false s) as [|d r]; [reflexivity|].
      rewrite no_double_space_cons, Hb. exact Hnd.
Qed.

Lemma lstrip_head (s : string) :
  match lstrip s with
  | String c _ => isspace c = false
  | EmptyString => True
  end.
Proof.
  induction s as [|c s IH]; simpl; [exact I|].
  destruct (isspace c) eqn:Hc; [exact IH|exact Hc].
Qed.

Lemma sub_ws_runs_nonempty (in_run : bool) (s : string) :
  rstrip s = s -> s <> "" -> sub_ws_runs in_run s <> "".
Proof.
  revert in_run. induction s as [|c s IH]; intros in_run Hr Hne; [congruence|].
  cbn [sub_ws_runs]. destruct (isspace c) eqn:Hc; [|discriminate].
  assert (Hs : s <> "").
  { intros ->. simpl in Hr. rewrite Hc in Hr. discriminate. }
  destruct in_run; [|discriminate].
  apply IH; [exact (rstrip_fixed_tail c s Hr)|exact Hs].
Qed.

Lemma rstrip_sub_ws_runs (in_run : bool) (s : string) :
  rstrip s = s -> rstrip (sub_ws_runs in_run s) = sub_ws_runs in_run s.
Proof.
  revert in_run. induction s as [|c s IH]; intros in_run Hr; [reflexivity|].
  pose proof (rstrip_fixed_tail c s Hr) as Hr'.
  cbn [sub_ws_runs]. destruct (isspace c) eqn:Hc.
  - assert (Hs : s <> "").
    { intros ->. simpl in Hr. rewrite Hc in Hr. discriminate. }
    destruct in_run; [apply IH, Hr'|].
    pose proof (sub_ws_runs_nonempty true s Hr' Hs) as Hne.
    cbn [rstrip]. rewrite (IH true Hr').
    destruct (sub_ws_runs true s); [congruence|reflexivity].
  - cbn [rstrip]. rewrite (IH false Hr'), Hc.
    destruct (sub_ws_runs false s); reflexivity.
Qed.

Lemma clean_plain_well_formed (s : string) :
  all_chars plain_char s = true ->
  no_outer_whitespace (clean s) = true /\ no_double_space (clean s) = true.
Proof.
  intros H. unfold clean.
  assert (Hk : all_chars keep_char (strip (lower s)) = true).
  { apply all_chars_strip. rewrite <- all_chars_lower.
    eapply all_chars_impl; [|exact H]. exact plain_char_kept. }
  rewrite sub_special_fixed
    by (apply all_chars_sub_ws_runs; [reflexivity|exact Hk]).
  split; [|apply sub_ws_runs_no_double].
  unfold no_outer_whitespace. apply String.eqb_eq.
  assert (Hr : rstrip (strip (lower s)) = strip (lower s)).
  { unfold strip. apply rstrip_lstrip_fixed, rstrip_idem. }
  unfold strip at 1. rewrite (rstrip_sub_ws_runs false _ Hr).
  pose proof (lstrip_head (rstrip (lower s))) as Hh.
  fold (strip (lower s)) in Hh.
  destruct (strip (lower s)) as [|c r]; [reflexivity|].
  cbn [sub_ws_runs]. rewrite Hh. cbn [lstrip]. rewrite Hh. reflexivity.
Qed.

Lemma canonical_names_well_formed :
  List.Forall
    (fun e => no_outer_whitespace e.1 = true /\ no_double_space e.1 = true)
    INGREDIENT_ALIASES.
Proof. refine (bool_decide_unpack _ _). vm_compute. exact I. Qed.

(** X21: when the text has no special characters, only letters, digits,
    whitespace and commas, every token of the output is well formed: no
    leading or trailing whitespace, no two consecutive spaces, and only
    [a-z], [0-9] and single spaces. *)
Theorem normalize_plain_text_well_formed (text tok : string) :
  all_chars (fun c => plain_char c || is_comma c) text = true ->
  In tok (normalize_ingredients text) ->
  no_outer_whitespace tok = true /\ no_double_space tok = true
  /\ charset_ok tok = true.
Proof.
  intros H Hin.
  split; [|split; [|exact (normalize_ingredients_charset text tok Hin)]];
    destruct (normalize_ingredients_dedup_props text) as (_ & Hel & _);
    apply Hel in Hin; destruct Hin as [Hin _];
    unfold normalized_fragments in Hin; apply in_map_iff in Hin;
    destruct Hin as (s & <- & Hs); apply filter_In in Hs;
    destruct Hs as [Hs _];
    assert (Hp : all_chars plain_char s = true)
      by (pose proof (split_on_all_chars plain_char is_comma_or_newline text)
            as Hf;
          rewrite List.Forall_forall in Hf; apply Hf; [|exact Hs];
          eapply all_chars_impl; [|exact H];
          intros c; unfold is_comma_or_newline, is_comma;
          rewrite !orb_true_iff; tauto);
    destruct (clean_plain_well_formed s Hp) as [Ho Hd];
    unfold normalize_ingredient;
    (destruct (resolve_alias_cases INGREDIENT_ALIASES (clean s))
      as [->|Hc];
     [assumption|
      apply in_map_iff in Hc; destruct Hc as (e & <- & He);
      pose proof canonical_names_well_formed as Hw;
      rewrite List.Forall_forall in Hw; apply (Hw e He)]).
Qed.

Lemma normalize_plain_text_well_formed_witness :
  all_chars (fun c => plain_char c || is_comma c)
            "  Red   Onion ,basmati" = true
  /\ In "red onion" (normalize_ingredients "  Red   Onion ,basmati")
  /\ no_outer_whitespace "red onion" = true
  /\ no_double_space "red onion" = true
  /\ charset_ok "red onion" = true.
Proof.
  assert (H1 : all_chars (fun c => plain_char c || is_comma c)
                         "  Red   Onion ,basmati" = true) by reflexivity.
  assert (H2 : In "red onion" (normalize_ingredients "  Red   Onion ,basmati"))
    by (vm_compute; auto).
  split; [exact H1|]. split; [exact H2|].
  exact (normalize_plain_text_well_formed "  Red   Onion ,basmati"
           "red onion" H1 H2).
Defined.

(** ** Keywords *)

Lemma string_app_assoc (a b c : string) :
  ((a ++ b) ++ c = a ++ (b ++ c))%string.
Proof.
  induction a as [|x a IH]; [reflexivity|].
  change (String x ((a ++ b) ++ c) = String x (a ++ (b ++ c)))%string.
  rewrite IH. reflexivity.
Qed.

Lemma split_on_pieces (sep : ascii -> bool) (s : string) :
  exists h t,
    split_on sep s = h :: t
    /\ (exists post,
          s = (h ++ post)%string
          /\ (post = "" \/ exists c p, post = String c p /\ sep c = true))
    /\ forall w, In w t ->
         exists p c post,
           s = (p ++ String c (w ++ post))%string /\ sep c = true
           /\ (post = "" \/ exists c' p', post = String c' p' /\ sep c' = true).
Proof.
  induction s as [|a s IH].
  - exists "", []. split; [reflexivity|]. split.
    + exists "". auto.
    + intros w [].
  - destruct IH as (h & t & Hsplit & (post0 & Hs & Hpost0) & Htail).
    simpl. rewrite Hsplit. destruct (sep a) eqn:Ha.
    + exists "", (h :: t). split; [reflexivity|]. split.
      * exists (String a s). split; [reflexivity|]. right. eauto.
      * intros w [<-|Hw].
        -- exists "", a, post0. rewrite Hs. auto.
        -- destruct (Htail w Hw) as (p & c & post & Hp & Hc & Hpost).
           exists (String a p), c, post. rewrite Hp. auto.
    + exists (String a h), t. split; [reflexivity|]. split.
      * exists post0. rewrite Hs. auto.
      * intros w Hw.
        destruct (Htail w Hw) as (p & c & post & Hp & Hc & Hpost).
        exists (String a p), c, post. rewrite Hp. auto.
Qed.

Lemma keyword_list_In (text k : string) :
  k ∈ extract_keywords text <-> In k (keyword_list text).
Proof.
  unfold extract_keywords. rewrite elem_of_list_to_set, list_elem_of_In.
  reflexivity.
Qed.

(** X22: every keyword consists of the letters [a-z] only, has at least
    three of them and is not a stop word. *)
Theorem extract_keywords_shape (text k : string) :
  k ∈ extract_keywords text ->
  all_chars is_az k = true /\ (3 <= String.length k)%nat /\ k ∉ stop_words.
Proof.
  rewrite keyword_list_In. unfold keyword_list, findall_az_words.
  rewrite !filter_In, !andb_true_iff, negb_true_iff, Nat.ltb_lt.
  intros [(_ & _ & Haz) [Hstop Hlen]].
  split; [exact Haz|]. split; [lia|].
  apply bool_decide_eq_false in Hstop. exact Hstop.
Qed.

Lemma extract_keywords_shape_witness :
  "butter" ∈ extract_keywords "Melt the BUTTER, add 3eggs"
  /\ all_chars is_az "butter" = true /\ (3 <= String.length "butter")%nat
  /\ "butter" ∉ stop_words.
Proof.
  assert (H : "butter" ∈ extract_keywords "Melt the BUTTER, add 3eggs")
    by (apply (bool_decide_unpack _); vm_compute; exact I).
  split; [exact H|].
  exact (extract_keywords_shape "Melt the BUTTER, add 3eggs" "butter" H).
Defined.

(** X23: a keyword is a whole word of the lowercased text, never a part of a
    longer word: it occurs there between two places that are each the end of
    the text or a character outside [\w]. *)
Theorem extract_keywords_whole_words (text k : string) :
  k ∈ extract_keywords text ->
  exists pre post,
    lower text = (pre ++ k ++ post)%string
    /\ (pre = "" \/ exists p c, pre = (p ++ String c "")%string
                               /\ is_word_char c = false)
    /\ (post = "" \/ exists c p, post = String c p /\ is_word_char c = false).
Proof.
  rewrite keyword_list_In. unfold keyword_list, findall_az_words.
  rewrite !filter_In. intros [[Hin _] _].
  destruct (split_on_pieces (fun c => negb (is_word_char c)) (lower text))
    as (h & t & Hsplit & (post0 & Hs & Hpost0) & Htail).
  rewrite Hsplit in Hin. destruct Hin as [<-|Hin].
  - exists "", post0. split; [exact Hs|]. split; [auto|].
    destruct Hpost0 as [->|(c & p & -> & Hc)]; [auto|].
    right. exists c, p. apply negb_true_iff in Hc. auto.
  - destruct (Htail k Hin) as (p & c & post & Hp & Hc & Hpost).
    exists (p ++ String c "")%string, post. split.
    + rewrite Hp, string_app_assoc. reflexivity.
    + split.
      * right. exists p, c. apply negb_true_iff in Hc. auto.
      * destruct Hpost as [->|(c' & p' & -> & Hc')]; [auto|].
        right. exists c', p'. apply negb_true_iff in Hc'. auto.
Qed.

Lemma extract_keywords_whole_words_witness :
  "butter" ∈ extract_keywords "Melt the BUTTER, add 3eggs"
  /\ exists pre post,
       lower "Melt the BUTTER, add 3eggs" = (pre ++ "butter" ++ post)%string
       /\ (pre = "" \/ exists p c, pre = (p ++ String c "")%string
                                  /\ is_word_char c = false)
       /\ (post = "" \/ exists c p, post = String c p
                                   /\ is_word_char c = false).
Proof.
  assert (H : "butter" ∈ extract_keywords "Melt the BUTTER, add 3eggs")
    by (apply (bool_decide_unpack _); vm_compute; exact I).
  split; [exact H|].
  exact (extract_keywords_whole_words "Melt the BUTTER, add 3eggs" "butter" H).
Defined.

(** The letter case of the text does not matter to its keywords. *)
Lemma extract_keywords_ignores_case (text : string) :
  extract_keywords (lower text) = extract_keywords text.
Proof.
  unfold extract_keywords, keyword_list. rewrite lower_idem. reflexivity.
Qed.

(** ** Search URLs *)

Lemma all_chars_app (p : ascii -> bool) (a b : string) :
  all_chars p (a ++ b)%string = all_chars p a && all_chars p b.
Proof.
  induction a as [|x a IH]; [reflexivity|].
  change (p x && all_chars p (a ++ b)%string
          = p x && all_chars p a && all_chars p b).
  rewrite IH, andb_assoc. reflexivity.
Qed.

Lemma quote_char_safe (c : ascii) :
  all_chars Youtube.url_safe_char (Youtube.quote_char c) = true.
Proof. destruct c as [[] [] [] [] [] [] [] []]; reflexivity. Qed.

Lemma quote_safe (s : string) :
  all_chars Youtube.url_safe_char (Youtube.quote s) = true.
Proof.
  induction s as [|c s IH]; [reflexivity|].
  cbn [Youtube.quote]. rewrite all_chars_app, quote_char_safe, IH. reflexivity.
Qed.

Lemma quote_app (a b : string) :
  Youtube.quote (a ++ b)%string = (Youtube.quote a ++ Youtube.quote b)%string.
Proof.
  induction a as [|x a IH]; [reflexivity|].
  change (Youtube.quote_char x ++ Youtube.quote (a ++ b)
          = (Youtube.quote_char x ++ Youtube.quote a) ++ Youtube.quote b)%string.
  rewrite IH, string_app_assoc. reflexivity.
Qed.

(** X24: both URLs are the fixed search address followed by a query in which
    only letters, digits, [_ . - ~ /] and [%] occur; whatever the recipe name
    and cuisine are, the query holds no space, [&], [=], [#], [?], [+] or
    quote character. *)
Theorem youtube_urls_have_safe_query (recipe_name' cuisine' : string) :
  (exists q,
     Youtube.generate_youtube_search_url recipe_name' cuisine'
     = ("https://www.youtube.com/results?search_query=" ++ q)%string
     /\ all_chars Youtube.url_safe_char q = true)
  /\ (exists q,
        Youtube.generate_youtube_playlist_url cuisine'
        = ("https://www.youtube.com/results?search_query=" ++ q)%string
        /\ all_chars Youtube.url_safe_char q = true)
  /\ forallb (fun c => negb (Youtube.url_safe_char c))
             [" "; "&"; "="; "#"; "?"; "+"; "034"; "'"]%char = true.
Proof.
  split; [|split; [|reflexivity]]; eexists; (split; [reflexivity|]);
    apply quote_safe.
Qed.

(** X25: quoting works character by character, so the search URL is the
    address, the quoted recipe name, [%20], the quoted cuisine and
    [%20recipe]; the cuisine URL is the address, the quoted cuisine and
    [%20recipes]. *)
Theorem youtube_urls_structure (recipe_name' cuisine' : string) :
  Youtube.generate_youtube_search_url recipe_name' cuisine'
  = ("https://www.youtube.com/results?search_query="
     ++ Youtube.quote recipe_name' ++ "%20" ++ Youtube.quote cuisine'
     ++ "%20recipe")%string
  /\ Youtube.generate_youtube_playlist_url cuisine'
     = ("https://www.youtube.com/results?search_query="
        ++ Youtube.quote cuisine' ++ "%20recipes")%string.
Proof.
  unfold Youtube.generate_youtube_search_url,
    Youtube.generate_youtube_playlist_url.
  cbv zeta. rewrite !quote_app. split; reflexivity.
Qed.

Lemma all_ascii_complete (c : ascii) : In c Youtube.all_ascii.
Proof.
  unfold Youtube.all_ascii. apply in_map_iff. exists (nat_of_ascii c).
  split; [apply ascii_nat_embedding|].
  apply in_seq. pose proof (nat_ascii_bounded c). lia.
Qed.

Lemma string_app_eq_prefix (a b r1 r2 : string) :
  (a ++ r1 = b ++ r2)%string ->
  String.prefix a b = true \/ String.prefix b a = true.
Proof.
  revert b. induction a as [|x a IH]; intros b H.
  - left. destruct b; reflexivity.
  - destruct b as [|y b]; [right; reflexivity|].
    injection H as -> H. destruct (IH b H) as [Hp|Hp]; [left|right];
      simpl; destruct (ascii_dec y y); congruence.
Qed.

Lemma quote_char_prefix_free_check :
  forallb
    (fun c1 =>
       forallb
         (fun c2 =>
            implb (String.prefix (Youtube.quote_char c1) (Youtube.quote_char c2)
                   || String.prefix (Youtube.quote_char c2)
                                    (Youtube.quote_char c1))
                  (Ascii.eqb c1 c2))
         Youtube.all_ascii)
    Youtube.all_ascii = true.
Proof. vm_compute. reflexivity. Qed.

Lemma quote_char_prefix_free (c1 c2 : ascii) (r1 r2 : string) :
  (Youtube.quote_char c1 ++ r1 = Youtube.quote_char c2 ++ r2)%string ->
  c1 = c2.
Proof.
  intros H. apply string_app_eq_prefix in H.
  pose proof quote_char_prefix_free_check as Hall.
  rewrite forallb_forall in Hall.
  specialize (Hall c1 (all_ascii_complete c1)).
  rewrite forallb_forall in Hall.
  specialize (Hall c2 (all_ascii_complete c2)).
  apply Ascii.eqb_eq.
  destruct (_ || _) eqn:E; [exact Hall|].
  apply orb_false_iff in E. destruct E, H; congruence.
Qed.

Lemma string_app_cancel_l (a x y : string) :
  (a ++ x = a ++ y)%string -> x = y.
Proof.
  induction a as [|c a IH]; [auto|]. intros [= H]. auto.
Qed.

Lemma quote_char_nonempty (c : ascii) : Youtube.quote_char c <> "".
Proof. destruct c as [[] [] [] [] [] [] [] []]; discriminate. Qed.

(** X26: quoting loses nothing: two different texts are never quoted to the
    same string, so the query can be recovered from the URL. *)
Theorem quote_injective (s1 s2 : string) :
  Youtube.quote s1 = Youtube.quote s2 -> s1 = s2.
Proof.
  revert s2. induction s1 as [|c1 s1 IH]; intros [|c2 s2] H.
  - reflexivity.
  - exfalso. cbn [Youtube.quote] in H.
    pose proof (quote_char_nonempty c2) as Hne.
    destruct (Youtube.quote_char c2); [congruence|discriminate].
  - exfalso. cbn [Youtube.quote] in H.
    pose proof (quote_char_nonempty c1) as Hne.
    destruct (Youtube.quote_char c1); [congruence|discriminate].
  - cbn [Youtube.quote] in H.
    pose proof (quote_char_prefix_free _ _ _ _ H) as ->.
    apply string_app_cancel_l in H. f_equal. apply IH, H.
Qed.

Lemma quote_injective_witness :
  Youtube.quote "dal & rice" = Youtube.quote "dal & rice"
  /\ "dal & rice" = "dal & rice".
Proof.
  split; [reflexivity|].
  apply (quote_injective "dal & rice" "dal & rice"). reflexivity.
Defined.

(** ** The Gemini wrapper *)




Lemma all_in_dict (keys : list string)
    (fields : gmap string AiEngine.json) :
  AiEngine.all_in keys (AiEngine.JDict fields) = Some true ->
  forall key, In key keys -> is_Some (fields !! key).
Proof.
  induction keys as [|k ks IH]; simpl; [tauto|].
  destruct (bool_decide_reflect (is_Some (fields !! k))) as [Hk|Hk];
    [|discriminate].
  intros H key [<-|Hin]; auto.
Qed.

Lemma validate_complete (result : AiEngine.json)
    (d : gmap string AiEngine.json) :
  AiEngine.validate result = Some (Some d) ->
  AiEngine.complete_recipe d
  /\ exists fields, result = AiEngine.JDict fields
                    /\ d = AiEngine.with_reason fields.
Proof.
  unfold AiEngine.validate.
  destruct (AiEngine.all_in _ result) as [[]|] eqn:Hall; try discriminate.
  destruct result as [| | | | |fields]; try discriminate.
  intros [= <-]. split; [|eauto].
  intros key Hin. unfold AiEngine.with_reason.
  destruct (decide ("reason" = key)) as [<-|Hne].
  - rewrite lookup_insert_eq. eauto.
  - rewrite lookup_insert_ne by exact Hne.
    apply in_app_iff in Hin. destruct Hin as [Hin|[Hin|[]]]; [|congruence].
    exact (all_in_dict _ _ Hall key Hin).
Qed.

Lemma collect_complete (results : list AiEngine.json)
    (recipes out : list (gmap string AiEngine.json)) :
  AiEngine.collect results recipes = Some out ->
  List.Forall AiEngine.complete_recipe recipes ->
  List.Forall AiEngine.complete_recipe out
  /\ (length out <= length recipes + length results)%nat.
Proof.
  revert recipes. induction results as [|r rs IH]; intros recipes; simpl.
  - intros [= <-] H. split; [exact H|lia].
  - destruct (AiEngine.validate r) as [[d|]|] eqn:Hv; [| |discriminate].
    + intros Hc Hf. destruct (validate_complete r d Hv) as [Hd _].
      destruct (IH _ Hc) as [Ho Hlen].
      * apply List.Forall_app. split; [exact Hf|]. repeat constructor. exact Hd.
      * split; [exact Ho|]. rewrite length_app in Hlen. simpl in Hlen. lia.
    + intros Hc Hf. destruct (IH _ Hc Hf) as [Ho Hlen]. split; [exact Ho|lia].
Qed.

Lemma contains_prefix (sub s : string) :
  String.prefix sub s = true -> AiEngine.contains sub s = true.
Proof.
  intros H. destruct s; cbn [AiEngine.contains]; [exact H|].
  rewrite H. reflexivity.
Qed.

Lemma split_str_nonempty (sep : string) (skip : nat) (s : string) :
  AiEngine.split_str sep skip s <> [].
Proof.
  revert skip. induction s as [|c s IH]; intros skip; [discriminate|].
  cbn [AiEngine.split_str]. destruct skip as [|k]; [|apply IH].
  destruct (String.prefix sep (String c s)); [discriminate|].
  destruct (AiEngine.split_str sep 0 s); discriminate.
Qed.

Lemma contains_fence_two_pieces (s : string) :
  AiEngine.contains "```" s = true ->
  exists first part others,
    AiEngine.split_str "```" 0 s = first :: part :: others.
Proof.
  induction s as [|c s IH]; [discriminate|].
  cbn [AiEngine.contains AiEngine.split_str].
  destruct (String.prefix "```" (String c s)) eqn:Hp.
  - intros _.
    pose proof (split_str_nonempty "```" (String.length "```" - 1) s) as Hne.
    destruct (AiEngine.split_str "```" (String.length "```" - 1) s)
      as [|part others]; [congruence|]. eauto.
  - intros H. destruct (IH H) as (first & part & others & ->). eauto.
Qed.

Lemma collect_from_results (all results : list AiEngine.json)
    (recipes out : list (gmap string AiEngine.json)) :
  (forall r, In r results -> In r all) ->
  AiEngine.collect results recipes = Some out ->
  List.Forall (fun d => exists fields,
                 In (AiEngine.JDict fields) all
                 /\ d = AiEngine.with_reason fields) recipes ->
  List.Forall (fun d => exists fields,
                 In (AiEngine.JDict fields) all
                 /\ d = AiEngine.with_reason fields) out.
Proof.
  revert recipes. induction results as [|r rs IH]; intros recipes Hsub; simpl.
  - intros [= <-] H. exact H.
  - destruct (AiEngine.validate r) as [[d|]|] eqn:Hv; [| |discriminate].
    + intros Hc Hf. apply (IH (recipes ++ [d])); [intros x Hx; apply Hsub; simpl; auto|exact Hc|].
      apply List.Forall_app. split; [exact Hf|]. repeat constructor.
      destruct (validate_complete r d Hv) as (_ & fields & -> & ->).
      exists fields. split; [apply Hsub; simpl; auto|reflexivity].
    + intros Hc Hf. apply (IH recipes); [intros x Hx; apply Hsub; simpl; auto|exact Hc|exact Hf].
Qed.

(** X28: when [generate_recipe_with_gemini] returns a recipe, the key is set
    and the client answered a non-empty text.  The text given to [json.loads]
    is the stripped answer, or, when the stripped answer starts with a code
    fence, the stripped second piece of its split at the fences, without a
    leading [json].  That text parsed to a JSON object, and the recipe is this
    object with its four required fields and a reason, the object's own
    reason if it had one. *)
Theorem generated_recipe_is_complete
    (json_loads : string -> option AiEngine.json) (api_key : string)
    (resp : AiEngine.response) (d : gmap string AiEngine.json) :
  AiEngine.generate_recipe_with_gemini json_loads api_key resp
  = AiEngine.Returns (Some d) ->
  api_key <> ""
  /\ AiEngine.complete_recipe d
  /\ exists answer text fields,
       resp = AiEngine.ResponseText answer
       /\ answer <> ""
       /\ ((String.prefix "```" (strip answer) = false
            /\ text = strip answer)
           \/ (String.prefix "```" (strip answer) = true
               /\ exists first part others,
                    AiEngine.split_str "```" 0 (strip answer)
                    = first :: part :: others
                    /\ text = strip (AiEngine.without_json_tag part)))
       /\ json_loads text = Some (AiEngine.JDict fields)
       /\ d = AiEngine.with_reason fields
       /\ (forall reason, fields !! "reason" = Some reason ->
                          d !! "reason" = Some reason).
Proof.
  unfold AiEngine.generate_recipe_with_gemini.
  destruct api_key as [|k ks]; [discriminate|].
  change (negb (truthy (String k ks))) with false. cbv iota.
  destruct resp as [|answer]; [discriminate|].
  destruct (truthy answer) eqn:Hta; [|discriminate].
  change (negb true) with false. cbv iota zeta.
  apply truthy_true in Hta.
  assert (Hfinish : forall text,
    match json_loads text with
    | Some result =>
        match AiEngine.validate result with
        | Some kept => AiEngine.Returns kept
        | None => AiEngine.RaisesApiError
        end
    | None => AiEngine.RaisesParseFailure
    end = AiEngine.Returns (Some d) ->
    AiEngine.complete_recipe d
    /\ exists fields,
         json_loads text = Some (AiEngine.JDict fields)
         /\ d = AiEngine.with_reason fields
         /\ (forall reason, fields !! "reason" = Some reason ->
                            d !! "reason" = Some reason)).
  { intros text.
    destruct (json_loads text) as [result|]; [|discriminate].
    destruct (AiEngine.validate result) as [[d'|]|] eqn:Hv; try discriminate.
    intros [= <-].
    destruct (validate_complete result d' Hv) as (Hc & fields & -> & ->).
    split; [exact Hc|]. exists fields. split; [reflexivity|].
    split; [reflexivity|].
    intros reason Hr. unfold AiEngine.with_reason. rewrite Hr.
    apply lookup_insert_eq. }
  destruct (String.prefix "```" (strip answer)) eqn:Hp.
  - destruct (contains_fence_two_pieces _ (contains_prefix _ _ Hp))
      as (first & part & others & Hs).
    rewrite Hs. fold (AiEngine.without_json_tag part). intros H.
    destruct (Hfinish _ H) as (Hc & fields & Hl & Hd & Hr).
    split; [discriminate|]. split; [exact Hc|].
    exists answer, (strip (AiEngine.without_json_tag part)), fields.
    split; [reflexivity|]. split; [exact Hta|].
    split; [right; split; [exact Hp|]; eauto|]. auto.
  - rewrite strip_idem. intros H.
    destruct (Hfinish _ H) as (Hc & fields & Hl & Hd & Hr).
    split; [discriminate|]. split; [exact Hc|].
    exists answer, (strip answer), fields.
    split; [reflexivity|]. split; [exact Hta|].
    split; [left; auto|]. auto.
Qed.

Lemma generated_recipe_is_complete_witness :
  AiEngine.generate_recipe_with_gemini AiEngine.sample_json_loads "key"
    (AiEngine.ResponseText
       ("```json " ++ AiEngine.sample_text ++ " ```")%string)
  = AiEngine.Returns (Some (AiEngine.with_reason AiEngine.sample_fields))
  /\ "key" <> ""
  /\ AiEngine.complete_recipe (AiEngine.with_reason AiEngine.sample_fields)
  /\ exists answer text fields,
       AiEngine.ResponseText
         ("```json " ++ AiEngine.sample_text ++ " ```")%string
       = AiEngine.ResponseText answer
       /\ answer <> ""
       /\ ((String.prefix "```" (strip answer) = false
            /\ text = strip answer)
           \/ (String.prefix "```" (strip answer) = true
               /\ exists first part others,
                    AiEngine.split_str "```" 0 (strip answer)
                    = first :: part :: others
                    /\ text = strip (AiEngine.without_json_tag part)))
       /\ AiEngine.sample_json_loads text = Some (AiEngine.JDict fields)
       /\ AiEngine.with_reason AiEngine.sample_fields
          = AiEngine.with_reason fields
       /\ (forall reason, fields !! "reason" = Some reason ->
             AiEngine.with_reason AiEngine.sample_fields !! "reason"
             = Some reason).
Proof.
  assert (H : AiEngine.generate_recipe_with_gemini AiEngine.sample_json_loads
                "key"
                (AiEngine.ResponseText
                   ("```json " ++ AiEngine.sample_text ++ " ```")%string)
              = AiEngine.Returns
                  (Some (AiEngine.with_reason AiEngine.sample_fields)))
    by (vm_compute; reflexivity).
  split; [exact H|].
  exact (generated_recipe_is_complete AiEngine.sample_json_loads "key"
           (AiEngine.ResponseText
              ("```json " ++ AiEngine.sample_text ++ " ```")%string)
           (AiEngine.with_reason AiEngine.sample_fields) H).
Defined.

(** X29: when [generate_multiple_recipes] returns a list, the key is set and
    the client answered a non-empty text.  The body is the stripped answer,
    or, when that holds a code fence, the stripped second piece of its split
    at the fences, without a leading [json]; the text given to [json.loads] is
    the part of the body from its first ["["] to its last ["]"], or the whole
    body.  That text parsed to a JSON array; the list returned is not empty,
    is no longer than the array, and each recipe in it is an object of the
    array with its four required fields and a reason. *)
Theorem generated_recipes_are_complete
    (json_loads : string -> option AiEngine.json) (api_key : string)
    (resp : AiEngine.response) (recipes : list (gmap string AiEngine.json)) :
  AiEngine.generate_multiple_recipes json_loads api_key resp
  = AiEngine.Returns (Some recipes) ->
  api_key <> ""
  /\ recipes <> []
  /\ List.Forall AiEngine.complete_recipe recipes
  /\ exists answer body results,
       resp = AiEngine.ResponseText answer
       /\ answer <> ""
       /\ ((AiEngine.contains "```" (strip answer) = false
            /\ body = strip answer)
           \/ (AiEngine.contains "```" (strip answer) = true
               /\ exists first part others,
                    AiEngine.split_str "```" 0 (strip answer)
                    = first :: part :: others
                    /\ body = strip (AiEngine.without_json_tag part)))
       /\ json_loads (AiEngine.array_part body)
          = Some (AiEngine.JList results)
       /\ (length recipes <= length results)%nat
       /\ List.Forall
            (fun d => exists fields,
               In (AiEngine.JDict fields) results
               /\ d = AiEngine.with_reason fields)
            recipes.
Proof.
  unfold AiEngine.generate_multiple_recipes.
  destruct api_key as [|k ks]; [discriminate|].
  change (negb (truthy (String k ks))) with false. cbv iota.
  destruct resp as [|answer]; [discriminate|].
  destruct (truthy answer) eqn:Hta; [|discriminate].
  change (negb true) with false. cbv iota zeta.
  apply truthy_true in Hta.
  assert (Hfinish : forall body,
    match json_loads (AiEngine.array_part body) with
    | Some (AiEngine.JList (first :: others)) =>
        match AiEngine.collect (first :: others) [] with
        | None => AiEngine.RaisesApiError
        | Some [] => AiEngine.Returns None
        | Some found => AiEngine.Returns (Some found)
        end
    | Some _ => AiEngine.Returns None
    | None => AiEngine.RaisesParseFailure
    end = AiEngine.Returns (Some recipes) ->
    recipes <> []
    /\ List.Forall AiEngine.complete_recipe recipes
    /\ exists results,
         json_loads (AiEngine.array_part body)
         = Some (AiEngine.JList results)
         /\ (length recipes <= length results)%nat
         /\ List.Forall
              (fun d => exists fields,
                 In (AiEngine.JDict fields) results
                 /\ d = AiEngine.with_reason fields)
              recipes).
  { intros body.
    destruct (json_loads (AiEngine.array_part body)) as [results|];
      [|discriminate].
    destruct results as [| | | | items|]; try discriminate.
    destruct items as [|first others]; [discriminate|].
    destruct (AiEngine.collect (first :: others) []) as [out|] eqn:Hc;
      [|discriminate].
    destruct out as [|r rs]; [discriminate|]. intros [= <-].
    destruct (collect_complete _ _ _ Hc (List.Forall_nil _)) as [Hf Hlen].
    split; [discriminate|]. split; [exact Hf|].
    exists (first :: others). split; [reflexivity|]. split; [exact Hlen|].
    apply (collect_from_results (first :: others) _ _ _ (fun r H => H) Hc).
    constructor. }
  destruct (AiEngine.contains "```" (strip answer)) eqn:Hc.
  - destruct (contains_fence_two_pieces _ Hc)
      as (first & part & others & Hs).
    rewrite Hs. fold (AiEngine.without_json_tag part).
    fold (AiEngine.array_part (strip (AiEngine.without_json_tag part))).
    intros H. destruct (Hfinish _ H) as (Hne & Hf & results & Hl & Hlen & Hin).
    split; [discriminate|]. split; [exact Hne|]. split; [exact Hf|].
    exists answer, (strip (AiEngine.without_json_tag part)), results.
    split; [reflexivity|]. split; [exact Hta|].
    split; [right; split; [exact Hc|]; eauto|]. auto.
  - rewrite strip_idem. fold (AiEngine.array_part (strip answer)).
    intros H. destruct (Hfinish _ H) as (Hne & Hf & results & Hl & Hlen & Hin).
    split; [discriminate|]. split; [exact Hne|]. split; [exact Hf|].
    exists answer, (strip answer), results.
    split; [reflexivity|]. split; [exact Hta|].
    split; [left; auto|]. auto.
Qed.

Lemma generated_recipes_are_complete_witness :
  AiEngine.generate_multiple_recipes AiEngine.sample_json_loads "key"
    (AiEngine.ResponseText
       ("Here are your recipes: " ++ AiEngine.sample_array_text
        ++ " Enjoy!")%string)
  = AiEngine.Returns (Some [AiEngine.with_reason AiEngine.sample_fields])
  /\ "key" <> ""
  /\ [AiEngine.with_reason AiEngine.sample_fields] <> []
  /\ List.Forall AiEngine.complete_recipe
                 [AiEngine.with_reason AiEngine.sample_fields]
  /\ exists answer body results,
       AiEngine.ResponseText
         ("Here are your recipes: " ++ AiEngine.sample_array_text
          ++ " Enjoy!")%string
       = AiEngine.ResponseText answer
       /\ answer <> ""
       /\ ((AiEngine.contains "```" (strip answer) = false
            /\ body = strip answer)
           \/ (AiEngine.contains "```" (strip answer) = true
               /\ exists first part others,
                    AiEngine.split_str "```" 0 (strip answer)
                    = first :: part :: others
                    /\ body = strip (AiEngine.without_json_tag part)))
       /\ AiEngine.sample_json_loads (AiEngine.array_part body)
          = Some (AiEngine.JList results)
       /\ (length [AiEngine.with_reason AiEngine.sample_fields]
           <= length results)%nat
       /\ List.Forall
            (fun d => exists fields,
               In (AiEngine.JDict fields) results
               /\ d = AiEngine.with_reason fields)
            [AiEngine.with_reason AiEngine.sample_fields].
Proof.
  assert (H : AiEngine.generate_multiple_recipes AiEngine.sample_json_loads
                "key"
                (AiEngine.ResponseText
                   ("Here are your recipes: " ++ AiEngine.sample_array_text
                    ++ " Enjoy!")%string)
              = AiEngine.Returns
                  (Some [AiEngine.with_reason AiEngine.sample_fields]))
    by (vm_compute; reflexivity).
  split; [exact H|].
  exact (generated_recipes_are_complete AiEngine.sample_json_loads "key"
           (AiEngine.ResponseText
              ("Here are your recipes: " ++ AiEngine.sample_array_text
               ++ " Enjoy!")%string)
           [AiEngine.with_reason AiEngine.sample_fields] H).
Defined.

Lemma rstrip_app_fixed (a b : string) :
  b <> "" -> rstrip b = b -> rstrip (a ++ b)%string = (a ++ b)%string.
Proof.
  intros Hne Hb. induction a as [|x a IH]; [exact Hb|].
  change (rstrip (String x (a ++ b)%string) = String x (a ++ b)%string).
  assert (Hab : (a ++ b)%string <> "").
  { destruct a as [|y a]; [exact Hne|discriminate]. }
  cbn [rstrip]. rewrite IH.
  destruct (a ++ b)%string; [congruence|reflexivity].
Qed.

Lemma prefix_cons (a b : ascii) (s1 s2 : string) :
  String.prefix (String a s1) (String b s2)
  = if ascii_dec a b then String.prefix s1 s2 else false.
Proof. reflexivity. Qed.

Lemma prefix_backticks_false (s : string) :
  all_chars (fun c => negb (AiEngine.is_backtick c)) s = true ->
  String.prefix "```" (s ++ "```")%string = (match s with
                                             | EmptyString => true
                                             | _ => false
                                             end)
  /\ String.prefix "```" s = false.
Proof.
  destruct s as [|c s]; [intros _; split; reflexivity|].
  cbn [all_chars]. rewrite andb_true_iff, negb_true_iff. intros [Hc _].
  change (String c s ++ "```")%string with (String c (s ++ "```")%string).
  rewrite !prefix_cons.
  destruct (ascii_dec "`" c) as [<-|_]; [discriminate|]. split; reflexivity.
Qed.

Lemma contains_backticks_false (s : string) :
  all_chars (fun c => negb (AiEngine.is_backtick c)) s = true ->
  AiEngine.contains "```" s = false.
Proof.
  induction s as [|c s IH]; [reflexivity|].
  intros H. cbn [AiEngine.contains].
  rewrite (proj2 (prefix_backticks_false _ H)).
  cbn [all_chars] in H. apply andb_true_iff in H. destruct H as [_ H].
  exact (IH H).
Qed.

Lemma split_str_closing_fence (q : string) :
  all_chars (fun c => negb (AiEngine.is_backtick c)) q = true ->
  AiEngine.split_str "```" 0 (q ++ "```")%string = [q; ""].
Proof.
  induction q as [|c q IH]; [reflexivity|].
  intros H. pose proof (proj1 (prefix_backticks_false _ H)) as Hp.
  change (String c q ++ "```")%string with (String c (q ++ "```")%string) in *.
  cbn [AiEngine.split_str]. rewrite Hp.
  cbn [all_chars] in H. apply andb_true_iff in H. destruct H as [_ H].
  rewrite (IH H). reflexivity.
Qed.

Lemma prefix_nil (s : string) : String.prefix "" s = true.
Proof. destruct s; reflexivity. Qed.

Lemma prefix_app_same (a x : string) : String.prefix a (a ++ x)%string = true.
Proof.
  induction a as [|c a IH]; [apply prefix_nil|].
  change (String c a ++ x)%string with (String c (a ++ x)%string).
  rewrite prefix_cons. destruct (ascii_dec c c); [exact IH|congruence].
Qed.

Lemma split_str_opening_fence (rest : string) :
  AiEngine.split_str "```" 0 ("```" ++ rest)%string
  = "" :: AiEngine.split_str "```" 0 rest.
Proof.
  pose proof (prefix_app_same "```" rest) as Hp.
  change ("```" ++ rest)%string
    with (String "`" (String "`" (String "`" rest))) in *.
  cbn [AiEngine.split_str]. rewrite Hp. reflexivity.
Qed.

Lemma split_str_fenced (q : string) :
  all_chars (fun c => negb (AiEngine.is_backtick c)) q = true ->
  AiEngine.split_str "```" 0 ("```" ++ q ++ "```")%string = [""; q; ""].
Proof.
  intros H.
  rewrite split_str_opening_fence, (split_str_closing_fence q H). reflexivity.
Qed.

Lemma strip_fenced (q : string) :
  strip ("```" ++ q ++ "```")%string = ("```" ++ q ++ "```")%string.
Proof.
  unfold strip.
  rewrite <- string_app_assoc.
  rewrite (rstrip_app_fixed ("```" ++ q) "```") by (discriminate || reflexivity).
  reflexivity.
Qed.

(** X30: an answer wrapped in a [json] code fence is handled as the text
    inside the fence: for a non-empty text without backticks, both generators
    do with the fenced answer what they do with the bare text. *)
Theorem fenced_answer_is_unwrapped
    (json_loads : string -> option AiEngine.json) (api_key payload : string) :
  all_chars (fun c => negb (AiEngine.is_backtick c)) payload = true ->
  payload <> "" ->
  AiEngine.generate_recipe_with_gemini json_loads api_key
    (AiEngine.ResponseText ("```json" ++ payload ++ "```")%string)
  = AiEngine.generate_recipe_with_gemini json_loads api_key
      (AiEngine.ResponseText payload)
  /\ AiEngine.generate_multiple_recipes json_loads api_key
       (AiEngine.ResponseText ("```json" ++ payload ++ "```")%string)
     = AiEngine.generate_multiple_recipes json_loads api_key
         (AiEngine.ResponseText payload).
Proof.
  intros Hb Hne.
  assert (Hq : all_chars (fun c => negb (AiEngine.is_backtick c))
                         ("json" ++ payload)%string = true)
    by (rewrite all_chars_app, Hb; reflexivity).
  assert (Hfence : ("```json" ++ payload ++ "```"
                    = "```" ++ ("json" ++ payload) ++ "```")%string)
    by reflexivity.
  assert (Hs : all_chars (fun c => negb (AiEngine.is_backtick c))
                         (strip payload) = true)
    by (apply all_chars_strip, Hb).
  assert (Ht : truthy payload = true) by (apply truthy_true, Hne).
  unfold AiEngine.generate_recipe_with_gemini,
    AiEngine.generate_multiple_recipes.
  destruct (negb (truthy api_key)); [split; reflexivity|].
  rewrite Ht. cbv zeta. rewrite Hfence, strip_fenced, (split_str_fenced _ Hq).
  rewrite (proj2 (prefix_backticks_false _ Hs)),
    (contains_backticks_false _ Hs), strip_idem.
  rewrite (prefix_app_same "```"),
    (contains_prefix _ _ (prefix_app_same "```" _)),
    (prefix_app_same "json").
  change (AiEngine.drop_chars 4 ("json" ++ payload)%string) with payload.
  split; reflexivity.
Qed.


Lemma fenced_answer_is_unwrapped_witness :
  all_chars (fun c => negb (AiEngine.is_backtick c)) " {} " = true
  /\ " {} " <> ""
  /\ AiEngine.generate_recipe_with_gemini AiEngine.sample_loads "key"
       (AiEngine.ResponseText ("```json" ++ " {} " ++ "```")%string)
     = AiEngine.generate_recipe_with_gemini AiEngine.sample_loads "key"
         (AiEngine.ResponseText " {} ")
  /\ AiEngine.generate_multiple_recipes AiEngine.sample_loads "key"
       (AiEngine.ResponseText ("```json" ++ " {} " ++ "```")%string)
     = AiEngine.generate_multiple_recipes AiEngine.sample_loads "key"
         (AiEngine.ResponseText " {} ").
Proof.
  split; [reflexivity|]. split; [discriminate|].
  apply (fenced_answer_is_unwrapped AiEngine.sample_loads "key" " {} ");
    [reflexivity|discriminate].
Defined.
